(** * Obfuscated TCP transport of the MTProto client

    A shallow embedding of [Telegram/SourceFiles/mtproto/connection_tcp.cpp]:
    the packet-size codec ([tcpPacketSize], the header written by [tcpSend],
    the header read by [handleResponse]), the obfuscation handshake
    ([writeConnectionStart]), the receive assembler ([socketRead]) and the
    connection state machine of [TCPConnection].

    Conventions.  A byte is a [Z] in [0, 256); [char] is the signed 8-bit
    type of the platforms the client is built for; [uint32] and [int32]
    arithmetic has its wrap-around written out ([u32], [i32]); a 32-bit word
    in memory is little-endian.  An [mtpBuffer] is a list of [int32] words.
    Signals emitted and calls made on the socket are appended, in program
    order, to a log kept in the connection state. *)

From Stdlib Require Import ZArith List Bool Lia.
Import ListNotations.
Local Open Scope Z_scope.

(** ** Machine integers and raw memory *)

Definition byte := Z.
Definition bytes := list byte.
Definition mtpPrime := Z.
Definition mtpBuffer := list mtpPrime.

Definition u32 (x : Z) : Z := x mod 2 ^ 32.
Definition i32 (x : Z) : Z := (x + 2 ^ 31) mod 2 ^ 32 - 2 ^ 31.
Definition u8 (x : Z) : Z := x mod 2 ^ 8.
(** value of a byte read through a [char] lvalue *)
Definition schar (b : byte) : Z := if b <? 128 then b else b - 256.

Definition is_byte (b : Z) : Prop := 0 <= b < 256.
Definition all_bytes (l : bytes) : Prop := Forall is_byte l.

Definition zlen {A} (l : list A) : Z := Z.of_nat (length l).

(** [p[i]] *)
Definition byte_at (p : bytes) (i : Z) : byte := nth (Z.to_nat i) p 0.
(** the [n] bytes at [p + off] *)
Definition sub (p : bytes) (off n : Z) : bytes :=
  firstn (Z.to_nat n) (skipn (Z.to_nat off) p).
(** [p[i] = v]; a store outside the object is not modelled (no change) *)
Fixpoint upd_nat (i : nat) (v : byte) (p : bytes) : bytes :=
  match p, i with
  | [], _ => []
  | _ :: t, O => v :: t
  | h :: t, S j => h :: upd_nat j v t
  end.
Definition upd (i : Z) (v : byte) (p : bytes) : bytes := upd_nat (Z.to_nat i) v p.
(** [memcpy(p + off, src, |src|)] when it stays inside [p] *)
Definition blit (p : bytes) (off : Z) (src : bytes) : bytes :=
  firstn (Z.to_nat off) p ++ src ++ skipn (Z.to_nat off + length src) p.

(** little-endian 32-bit loads and stores *)
Definition le32 (b0 b1 b2 b3 : byte) : Z :=
  Z.lor (Z.shiftl (Z.lor (Z.shiftl (Z.lor (Z.shiftl b3 8) b2) 8) b1) 8) b0.
Definition load_u32 (p : bytes) (off : Z) : Z :=
  le32 (byte_at p off) (byte_at p (off + 1)) (byte_at p (off + 2)) (byte_at p (off + 3)).
Definition load_i32 (p : bytes) (off : Z) : Z := i32 (load_u32 p off).
Definition bytes_of_u32 (w : Z) : bytes :=
  [Z.land w 255; Z.land (Z.shiftr w 8) 255; Z.land (Z.shiftr w 16) 255;
   Z.land (Z.shiftr w 24) 255].
Definition bytes_of_u16 (w : Z) : bytes :=
  [Z.land w 255; Z.land (Z.shiftr w 8) 255].
Definition bytes_of_prime (w : mtpPrime) : bytes := bytes_of_u32 (u32 w).

(** the bytes of an [mtpBuffer], as seen through [reinterpret_cast<char*>] *)
Definition bytes_of_words (ws : mtpBuffer) : bytes := flat_map bytes_of_prime ws.
(** [n] words read from [p + off] *)
Fixpoint words_at (p : bytes) (off : Z) (n : nat) : mtpBuffer :=
  match n with
  | O => []
  | S k => load_i32 p off :: words_at p (off + 4) k
  end.

(** ** PacketSizeCodec *)

(** [tcpPacketSize]: total frame length declared by the header at [packet] *)
Definition tcpPacketSize (packet : bytes) : Z :=
  let p0 := schar (byte_at packet 0) in
  let result := u32 (if p0 >? 0 then p0 else 0) in
  if result =? 0x7f then
    let result :=
      u32 (Z.lor (u32 (Z.shiftl
             (Z.lor (u32 (Z.shiftl (byte_at packet 3) 8)) (byte_at packet 2)) 8))
             (byte_at packet 1)) in
    u32 (u32 (Z.shiftl result 2) + 4)
  else u32 (u32 (Z.shiftl result 2) + 1).

(** The header stores of [tcpSend]: [data] is the byte view of the outgoing
    buffer; the result is the buffer with the header written and the offset
    at which the frame starts ([data + 7] or [data + 4]). *)
Definition write_header (data : bytes) (size : Z) : bytes * Z :=
  if size <? 0x7f then
    (upd 7 (u8 size) data, 7)
  else
    (upd 7 (u8 (Z.land (Z.shiftr size 16) 0xFF))
       (upd 6 (u8 (Z.land (Z.shiftr size 8) 0xFF))
          (upd 5 (u8 (Z.land size 0xFF))
             (upd 4 0x7f data))), 4).

(** the header bytes [tcpSend] produces for a payload of [size] words *)
Definition encode_header (size : Z) : bytes :=
  let '(d, off) := write_header (repeat 0 8) size in sub d off (8 - off).

(** Lines 137-142 of [handleResponse]: the declared payload size in words
    and the number of bytes that follow the header in a packet of [length]
    bytes. *)
Definition read_header (packet : bytes) (length : Z) : Z * Z :=
  let size := schar (byte_at packet 0) in
  let len := i32 (length - 1) in
  if size =? 0x7f then
    (i32 (u32 (Z.lor (u32 (Z.shiftl
             (Z.lor (u32 (Z.shiftl (byte_at packet 3) 8)) (byte_at packet 2)) 8))
             (byte_at packet 1))),
     i32 (len - 3))
  else (size, len).

(** what a header declares: payload words and the header's own length *)
Definition decode_header (packet : bytes) : Z * Z :=
  let '(size, len) := read_header packet 4 in (size, 4 - len).

(** ** What the file takes from the rest of the client

    Constants and helpers declared in headers and sources outside
    [connection_tcp.cpp]: they are parameters of the development. *)

(** Modelled from the spec: the cipher state of one direction ([CTRState],
    declared outside this file), a running initialization vector and
    counter.  This file stores into [ivec] only; [num] and [ecount] stand
    for the part of the state that only [aesCtrEncrypt] reads and writes. *)
Record CTRState := mkCTR { ivec : bytes; num : Z; ecount : bytes }.

(** Modelled from the spec: [CTRState::KeySize] and [CTRState::IvecSize],
    declared outside this file.  The key source is 32 bytes and the IV the
    16 bytes that remain of the 48-byte middle region of the nonce. *)
Definition KeySize : Z := 32.
Definition IvecSize : Z := 16.

Class Externals := {
  (** size of [shortBuffer], in [mtpPrime] words *)
  MTPShortBufferSize : Z;
  (** largest frame accepted, in bytes *)
  MTPPacketSizeMax : Z;
  (** the generic error code passed to [error()] *)
  kErrorCodeOther : Z;
  (** [aesCtrEncrypt(data, len, key, &state)]: the data after the call and
      the advanced state; the call works in place, so the result is as long
      as the data *)
  aesCtrEncrypt : bytes -> bytes -> CTRState -> bytes * CTRState;
  (** [openssl::Sha256] *)
  Sha256 : bytes -> bytes;
  (** [preparePQFake(nonce)]: the probe request *)
  preparePQFake : Z -> mtpBuffer;
  (** [readPQFakeReply(buffer)] followed by [c_resPQ().vnonce]: the nonce of
      the probe response, [None] when parsing throws [Exception] *)
  readPQFakeReply : mtpBuffer -> option Z
}.

Definition kMinReceiveTimeout : Z := 2000.
Definition kMaxReceiveTimeout : Z := 8000.

Inductive Status := WaitingTcp | UsingTcp | FinishedWork.

Definition Status_eqb (a b : Status) : bool :=
  match a, b with
  | WaitingTcp, WaitingTcp | UsingTcp, UsingTcp | FinishedWork, FinishedWork => true
  | _, _ => false
  end.

(** [QAbstractSocket::SocketState] *)
Inductive SocketState :=
| UnconnectedState | HostLookupState | ConnectingState | ConnectedState
| BoundState | ListeningState | ClosingState.

(** Signals emitted to the owner of the connection and calls made on [sock],
    in program order. *)
Inductive Output :=
| EmitError (code : Z)
| EmitConnected
| EmitDisconnected
| EmitReceivedData
| EmitReceivedSome
| SockWrite (data : bytes)
| SockConnectToHost
| SockDisconnectFromHost
| SockClose
| SockSubscribeRead
| SockUnsubscribeRead.

(** the receive buffer of [AbstractTCPConnection]; [currentPos] is kept as
    an offset into the buffer being filled ([shortBuffer] when
    [readingToShort], [longBuffer] otherwise) *)
Record Assembler := mkAsm {
  packetRead : Z;
  packetLeft : Z;
  readingToShort : bool;
  currentPos : Z;
  shortBuffer : bytes;
  longBuffer : bytes
}.

(** the send side of [AbstractTCPConnection] and both cipher states *)
Record Obfuscation := mkObf {
  packetNum : Z;
  _sendKey : bytes;
  _sendState : CTRState;
  _receiveKey : bytes;
  _receiveState : CTRState;
  _protocolSecret : bytes;
  _protocolDcId : Z
}.

Record Conn := mkConn {
  asm : Assembler;
  obf : Obfuscation;
  status : Status;
  tcpNonce : Z;
  _tcpTimeout : Z;
  _pingTime : Z;
  (** [tcpTimeoutTimer]: [Some interval] while the single-shot timer runs *)
  tcpTimeoutTimer : option Z;
  _receivedQueue : list mtpBuffer;
  out : list Output
}.

Definition with_asm (a : Assembler) (c : Conn) : Conn :=
  mkConn a (obf c) (status c) (tcpNonce c) (_tcpTimeout c) (_pingTime c)
         (tcpTimeoutTimer c) (_receivedQueue c) (out c).
Definition with_obf (o : Obfuscation) (c : Conn) : Conn :=
  mkConn (asm c) o (status c) (tcpNonce c) (_tcpTimeout c) (_pingTime c)
         (tcpTimeoutTimer c) (_receivedQueue c) (out c).
Definition with_status (s : Status) (c : Conn) : Conn :=
  mkConn (asm c) (obf c) s (tcpNonce c) (_tcpTimeout c) (_pingTime c)
         (tcpTimeoutTimer c) (_receivedQueue c) (out c).
Definition with_tcpTimeout (t : Z) (c : Conn) : Conn :=
  mkConn (asm c) (obf c) (status c) (tcpNonce c) t (_pingTime c)
         (tcpTimeoutTimer c) (_receivedQueue c) (out c).
Definition with_pingTime (t : Z) (c : Conn) : Conn :=
  mkConn (asm c) (obf c) (status c) (tcpNonce c) (_tcpTimeout c) t
         (tcpTimeoutTimer c) (_receivedQueue c) (out c).
Definition with_timer (t : option Z) (c : Conn) : Conn :=
  mkConn (asm c) (obf c) (status c) (tcpNonce c) (_tcpTimeout c) (_pingTime c)
         t (_receivedQueue c) (out c).
Definition with_queue (q : list mtpBuffer) (c : Conn) : Conn :=
  mkConn (asm c) (obf c) (status c) (tcpNonce c) (_tcpTimeout c) (_pingTime c)
         (tcpTimeoutTimer c) q (out c).
(** append one entry to the log *)
Definition emit (o : Output) (c : Conn) : Conn :=
  mkConn (asm c) (obf c) (status c) (tcpNonce c) (_tcpTimeout c) (_pingTime c)
         (tcpTimeoutTimer c) (_receivedQueue c) (out c ++ [o]).

Section Transport.
Context {E : Externals}.

(** ** Decoding one frame *)

(** the four [return] statements of [handleResponse] *)
Inductive Response :=
| BadPacketSize
| BadPacketHeader
| ErrorPacket (code : mtpPrime)
| Packet (data : mtpBuffer).

Definition parseResponse (packet : bytes) (length : Z) : Response :=
  if (length <? 5) || (length >? MTPPacketSizeMax) then BadPacketSize
  else
    let '(size, len) := read_header packet length in
    if negb (i32 (size * 4) =? len) then BadPacketHeader
    else
      let packetdata := u32 (length - len) in
      if size =? 1 then ErrorPacket (load_i32 packet packetdata)
      else Packet (words_at packet packetdata (Z.to_nat size)).

Definition buffer_of (r : Response) : mtpBuffer :=
  match r with
  | BadPacketSize | BadPacketHeader => [-500]
  | ErrorPacket code => [code]
  | Packet data => data
  end.

(** the two returns logged as a bad packet *)
Definition malformed (r : Response) : bool :=
  match r with
  | BadPacketSize | BadPacketHeader => true
  | _ => false
  end.

(** [AbstractTCPConnection::handleResponse] *)
Definition handleResponse (packet : bytes) (length : Z) : mtpBuffer :=
  buffer_of (parseResponse packet length).

(** Lines 394-414 of [socketPacket]: what becomes of the buffer
    [handleResponse] returned; [now] is the value [getms()] returns. *)
Definition packetDecoded (now : Z) (c : Conn) (data : mtpBuffer) : Conn :=
  if zlen data =? 1 then emit (EmitError (nth 0 data 0)) c
  else
    match status c with
    | UsingTcp =>
        emit EmitReceivedData (with_queue (_receivedQueue c ++ [data]) c)
    | WaitingTcp =>
        let c := with_timer None c in
        match readPQFakeReply data with
        | Some vnonce =>
            if vnonce =? tcpNonce c then
              emit EmitConnected
                (with_pingTime (now - _pingTime c) (with_status UsingTcp c))
            else c
        | None => emit (EmitError kErrorCodeOther) c
        end
    | FinishedWork => c
    end.

(** [TCPConnection::socketPacket]: a connection in [FinishedWork] returns
    before it decodes the packet *)
Definition socketPacket (now : Z) (c : Conn) (packet : bytes) (length : Z) : Conn :=
  if Status_eqb (status c) FinishedWork then c
  else packetDecoded now c (handleResponse packet length).

(** ** ObfuscationCipher: the handshake *)

Definition reserved01 : Z := 0x000000EF.
Definition reserved11 : Z := 0x44414548.
Definition reserved12 : Z := 0x54534F50.
Definition reserved13 : Z := 0x20544547.
Definition reserved14 : Z := 0x20544547.
Definition reserved15 : Z := 0xEEEEEEEE.
Definition reserved21 : Z := 0x00000000.

(** the five constants the first word is compared with *)
Definition reserved_first : list Z :=
  [reserved11; reserved12; reserved13; reserved14; reserved15].

(** the condition of the [do ... while] of [writeConnectionStart]:
    [*zero] is the first byte, [*first] and [*second] the first two
    32-bit words of the nonce *)
Definition nonce_rejected (nonce : bytes) : bool :=
  let zero := byte_at nonce 0 in
  let first := load_u32 nonce 0 in
  let second := load_u32 nonce 4 in
  (zero =? reserved01)
  || (first =? reserved11)
  || (first =? reserved12)
  || (first =? reserved13)
  || (first =? reserved14)
  || (first =? reserved15)
  || (second =? reserved21).

(** The loop itself.  [random] lists the successive contents
    [bytes::set_random] gives the 64-byte buffer; the loop returns the first
    one that is not rejected, and has not returned within the listed draws
    when all of them are rejected. *)
Fixpoint generate_nonce (random : list bytes) : option bytes :=
  match random with
  | [] => None
  | nonce :: later =>
      if nonce_rejected nonce then generate_nonce later else Some nonce
  end.

(** [bytes::copy(dst, src)], for [|src| <= |dst|] *)
Definition copy (dst src : bytes) : bytes :=
  firstn (length dst) (src ++ skipn (length src) dst).

(** the lambda [prepareKey]: the new contents of [key] *)
Definition prepareKey (secret key from : bytes) : bytes :=
  if zlen secret =? 16 then copy key (Sha256 (from ++ secret))
  else if zlen secret =? 0 then copy key from
  else map (fun _ => 0) key.

Definition set_ivec (s : CTRState) (iv : bytes) : CTRState :=
  mkCTR (copy (ivec s) iv) (num s) (ecount s).

(** [AbstractTCPConnection::writeConnectionStart] *)
Definition writeConnectionStart (random : list bytes) (c : Conn) : option Conn :=
  match generate_nonce random with
  | None => None
  | Some nonce =>
      let o := obf c in
      let secret := _protocolSecret o in
      (* prepare encryption key/iv *)
      let sendKey := prepareKey secret (_sendKey o) (sub nonce 8 KeySize) in
      let sendState := set_ivec (_sendState o) (sub nonce (8 + KeySize) IvecSize) in
      (* prepare decryption key/iv *)
      let reversed := rev (copy (repeat 0 48) (sub nonce 8 48)) in
      let receiveKey := prepareKey secret (_receiveKey o) (sub reversed 0 KeySize) in
      let receiveState := set_ivec (_receiveState o) (sub reversed KeySize IvecSize) in
      (* write protocol and dc ids *)
      let nonce := blit nonce 56 (bytes_of_u32 0xEFEFEFEF) in
      let nonce := blit nonce 60 (bytes_of_u16 (_protocolDcId o mod 2 ^ 16)) in
      let c := emit (SockWrite (sub nonce 0 56)) c in
      let '(nonce, sendState) := aesCtrEncrypt nonce sendKey sendState in
      let c := emit (SockWrite (sub nonce 56 8)) c in
      Some (with_obf (mkObf (packetNum o) sendKey sendState receiveKey receiveState
                            secret (_protocolDcId o)) c)
  end.

(** the 64-byte buffer at the time of the writes: the nonce with the
    protocol marker at offset 56 and the datacenter id at offset 60 *)
Definition marked (nonce : bytes) (dc : Z) : bytes :=
  firstn 56 nonce ++ [0xEF; 0xEF; 0xEF; 0xEF] ++ bytes_of_u16 (dc mod 2 ^ 16)
  ++ skipn 62 nonce.

(** the key [prepareKey] derives from a 32-byte source *)
Definition derived_key (secret source : bytes) : bytes :=
  if zlen secret =? 16 then Sha256 (source ++ secret)
  else if zlen secret =? 0 then source
  else repeat 0 32.

(** ** FrameSender *)

(** Lines 344-360 of [tcpSend] up to the call of [aesCtrEncrypt]: the bytes
    of the frame, [len + 1] from [data + 7] or [len + 4] from [data + 4]. *)
Definition outgoing_frame (buffer : mtpBuffer) : bytes :=
  let size := u32 (zlen buffer - 3) in
  let len := u32 (size * 4) in
  let '(data, start) := write_header (bytes_of_words buffer) size in
  sub data start (u32 (len + (8 - start))).

(** [AbstractTCPConnection::tcpSend].  Its only caller, [sendData], passes
    buffers of at least 3 words. *)
Definition tcpSend (random : list bytes) (c : Conn) (buffer : mtpBuffer) : option Conn :=
  match (if packetNum (obf c) =? 0 then writeConnectionStart random c else Some c) with
  | None => None
  | Some c =>
      let o := obf c in
      let packetNum' := u32 (packetNum o + 1) in
      let '(sent, sendState) :=
        aesCtrEncrypt (outgoing_frame buffer) (_sendKey o) (_sendState o) in
      Some (emit (SockWrite sent)
              (with_obf (mkObf packetNum' (_sendKey o) sendState (_receiveKey o)
                               (_receiveState o) (_protocolSecret o) (_protocolDcId o)) c))
  end.

(** [TCPConnection::sendData] *)
Definition sendData (random : list bytes) (c : Conn) (buffer : mtpBuffer) : option Conn :=
  if Status_eqb (status c) FinishedWork then Some c
  else if zlen buffer <? 3 then Some (emit (EmitError kErrorCodeOther) c)
  else tcpSend random c buffer.

(** ** ConnectionStateMachine *)

(** [TCPConnection::onSocketConnected] *)
Definition onSocketConnected (now : Z) (random : list bytes) (c : Conn) : option Conn :=
  match status c with
  | WaitingTcp =>
      let buffer := preparePQFake (tcpNonce c) in
      let c := if _tcpTimeout c <? 0 then with_tcpTimeout (- _tcpTimeout c) c else c in
      let c := with_timer (Some (_tcpTimeout c)) c in
      let c := with_pingTime now c in
      sendData random c buffer
  | _ => Some c
  end.

(** [TCPConnection::onTcpTimeoutTimer]; [state] is what [sock.state()] returns *)
Definition onTcpTimeoutTimer (state : SocketState) (c : Conn) : Conn :=
  match status c with
  | WaitingTcp =>
      let c := if _tcpTimeout c <? kMaxReceiveTimeout
               then with_tcpTimeout (_tcpTimeout c * 2) c else c in
      let c := with_tcpTimeout (- _tcpTimeout c) c in
      match state with
      | ConnectedState | ConnectingState | HostLookupState => emit SockDisconnectFromHost c
      | ClosingState => c
      | _ => emit SockConnectToHost c
      end
  | _ => c
  end.

(** the single-shot timer expires: it stops running and its slot is called *)
Definition timerExpires (state : SocketState) (c : Conn) : Conn :=
  onTcpTimeoutTimer state (with_timer None c).

(** [TCPConnection::onSocketDisconnected] *)
Definition onSocketDisconnected (c : Conn) : Conn :=
  let retry := (_tcpTimeout c <? 0) && Status_eqb (status c) WaitingTcp in
  let c := if _tcpTimeout c <? 0 then with_tcpTimeout (- _tcpTimeout c) c else c in
  if retry then emit SockConnectToHost c
  else
    match status c with
    | WaitingTcp | UsingTcp => emit EmitDisconnected c
    | FinishedWork => c
    end.

(** [TCPConnection::disconnectFromServer] *)
Definition disconnectFromServer (c : Conn) : Conn :=
  match status c with
  | FinishedWork => c
  | _ => emit SockClose (emit SockUnsubscribeRead (with_status FinishedWork c))
  end.

(** [TCPConnection::connectToServer] *)
Definition connectToServer (protocolSecret : bytes) (protocolDcId : Z) (c : Conn) : Conn :=
  let o := obf c in
  let c := with_obf (mkObf (packetNum o) (_sendKey o) (_sendState o) (_receiveKey o)
                           (_receiveState o) protocolSecret protocolDcId) c in
  emit SockConnectToHost (emit SockSubscribeRead c).

(** [TCPConnection::socketError] *)
Definition socketError (c : Conn) : Conn :=
  match status c with
  | FinishedWork => c
  | _ => emit (EmitError kErrorCodeOther) c
  end.

(** Modelled from the spec: the receive buffer of a new connection (the
    in-class initialisers are outside this file): nothing received, no
    frame pending, the inline buffer in use. *)
Definition newAssembler : Assembler :=
  mkAsm 0 0 true 0 (repeat 0 (Z.to_nat (MTPShortBufferSize * 4))) [].

(** Modelled from the spec: the send side of a new connection (the in-class
    initialisers are outside this file): no packet sent yet, so that the
    first send performs the handshake; keys and cipher states zeroed; no
    secret. *)
Definition newObfuscation : Obfuscation :=
  mkObf 0 (repeat 0 32) (mkCTR (repeat 0 16) 0 (repeat 0 16))
        (repeat 0 32) (mkCTR (repeat 0 16) 0 (repeat 0 16)) [] 0.

(** The constructor [TCPConnection::TCPConnection]: [nonce] is the value
    [rand_value<MTPint128>()] returns; the timer is not running and nothing
    is queued. *)
Definition newConnection (nonce : Z) : Conn :=
  mkConn newAssembler newObfuscation
         WaitingTcp nonce kMinReceiveTimeout 0 None [] [].

(** ** ReceiveAssembler *)

(** the socket as [socketRead] sees it: its state, the bytes it has buffered
    for reading, and whether [read] reports a failure *)
Record Socket := mkSock {
  sock_state : SocketState;
  sock_available : bytes;
  sock_read_fails : bool
}.

(** [QVector<mtpPrime>::resize(words)], on the byte view of the vector *)
Definition resize (buf : bytes) (words : Z) : bytes :=
  let n := Z.to_nat (4 * words) in
  firstn n buf ++ repeat 0 (n - length buf).

(** the buffer [currentPos] points into *)
Definition active (a : Assembler) : bytes :=
  if readingToShort a then shortBuffer a else longBuffer a.

Definition with_counters (read left : Z) (a : Assembler) : Assembler :=
  mkAsm read left (readingToShort a) (currentPos a) (shortBuffer a) (longBuffer a).

(** back to the empty short buffer (lines 79-82 and 110-112) *)
Definition to_short_empty (read left : Z) (a : Assembler) : Assembler :=
  mkAsm read left true 0 (shortBuffer a) [].

Inductive Scan :=
| ScanError (c : Conn)               (* [emit error; return] *)
| ScanWait (c : Conn)                (* [break]: the frame is incomplete *)
| ScanNext (c : Conn).               (* one frame handed over, look again *)

(** One turn of [while (packetRead >= 4)] (lines 90-106), entered with
    [packetRead >= 4]. *)
Definition scan_step (now : Z) (c : Conn) : Scan :=
  let a := asm c in
  let packet := skipn (Z.to_nat (currentPos a - packetRead a)) (active a) in
  let packetSize := tcpPacketSize packet in
  if (packetSize <? 5) || (packetSize >? MTPPacketSizeMax) then
    ScanError (emit (EmitError kErrorCodeOther) c)
  else if packetRead a >=? packetSize then
    let c := socketPacket now c (sub packet 0 packetSize) packetSize in
    ScanNext (with_asm (with_counters (u32 (packetRead a - packetSize)) 0 (asm c)) c)
  else
    ScanWait (emit EmitReceivedSome
                (with_asm (with_counters (packetRead a) (u32 (packetSize - packetRead a)) a) c)).

(** the [while] loop; the result carries the flag [move] *)
Fixpoint scan (fuel : nat) (now : Z) (c : Conn) (move : bool) : option (Scan * bool) :=
  if packetRead (asm c) >=? 4 then
    match fuel with
    | O => None
    | S fuel =>
        match scan_step now c with
        | ScanNext c => scan fuel now c true
        | r => Some (r, move)
        end
    end
  else Some (ScanNext c, move).

(** lines 108-119 *)
Definition after_scan (a : Assembler) : Assembler :=
  if packetRead a =? 0 then to_short_empty (packetRead a) (packetLeft a) a
  else if negb (readingToShort a) && (packetRead a <? MTPShortBufferSize * 4) then
    mkAsm (packetRead a) (packetLeft a) true (packetRead a)
          (blit (shortBuffer a) 0
                (sub (longBuffer a) (currentPos a - packetRead a) (packetRead a)))
          []
  else a.

(** lines 54-67: the size of the next read and the buffer it goes to *)
Definition toRead (a : Assembler) : Z :=
  if packetLeft a =? 0 then
    if readingToShort a then u32 (MTPShortBufferSize * 4 - packetRead a) else 4
  else packetLeft a.

Definition make_room (a : Assembler) : Assembler :=
  let words := Z.shiftr (u32 (packetRead a + toRead a)) 2 + 1 in
  if readingToShort a then
    if currentPos a + toRead a >? MTPShortBufferSize * 4 then
      mkAsm (packetRead a) (packetLeft a) false (packetRead a) (shortBuffer a)
            (blit (resize (longBuffer a) words) 0 (sub (shortBuffer a) 0 (packetRead a)))
    else a
  else
    if zlen (longBuffer a) <? u32 (packetRead a + toRead a) then
      mkAsm (packetRead a) (packetLeft a) false (packetRead a) (shortBuffer a)
            (resize (longBuffer a) words)
    else a.

(** lines 68-74: the [n] bytes read, deciphered to [data], are at
    [currentPos]; [packetRead] and [currentPos] move on by [n] *)
Definition store (a : Assembler) (n : Z) (data : bytes) : Assembler :=
  if readingToShort a then
    mkAsm (u32 (packetRead a + n)) (packetLeft a) true (currentPos a + n)
          (blit (shortBuffer a) (currentPos a) data) (longBuffer a)
  else
    mkAsm (u32 (packetRead a + n)) (packetLeft a) false (currentPos a + n)
          (shortBuffer a) (blit (longBuffer a) (currentPos a) data).

Inductive Turn :=
| TurnAgain (c : Conn)       (* reaches the [while] condition of the [do] *)
| TurnReturn (c : Conn)      (* [return] or [break] *)
| TurnOverrun                (* the read stores past the end of the buffer *)
| TurnUnfinished.            (* the bound given to [scan] was too small *)

(** One turn of the [do ... while] of [socketRead] (lines 54-128); [chunk]
    is what [sock.read(currentPos, toRead)] delivers. *)
Definition turn (now : Z) (fails : bool) (c : Conn) (chunk : bytes) : Turn :=
  let a := make_room (asm c) in
  let c := with_asm a c in
  if fails then TurnReturn (emit (EmitError kErrorCodeOther) c)
  else if zlen chunk >? 0 then
    if currentPos a + zlen chunk >? zlen (active a) then TurnOverrun
    else
      let o := obf c in
      let '(plain, receiveState) := aesCtrEncrypt chunk (_receiveKey o) (_receiveState o) in
      let c := with_obf (mkObf (packetNum o) (_sendKey o) (_sendState o) (_receiveKey o)
                               receiveState (_protocolSecret o) (_protocolDcId o)) c in
      let a := store a (zlen chunk) plain in
      let c := with_asm a c in
      if negb (packetLeft a =? 0) then
        let left := u32 (packetLeft a - zlen chunk) in
        if left =? 0 then
          let packet := sub (active a) (currentPos a - packetRead a) (packetRead a) in
          let c := socketPacket now c packet (packetRead a) in
          TurnAgain (with_asm (to_short_empty 0 0 (asm c)) c)
        else
          TurnAgain (emit EmitReceivedSome
                       (with_asm (with_counters (packetRead a) left a) c))
      else
        match scan (Z.to_nat (packetRead a)) now c false with
        | None => TurnUnfinished
        | Some (ScanError c, _) => TurnReturn c
        | Some (ScanWait c, move) | Some (ScanNext c, move) =>
            TurnAgain (if move then with_asm (after_scan (asm c)) c else c)
        end
  else TurnReturn c.

(** how a run of the receive path ends *)
Inductive Run (A : Type) :=
| Done (a : A)
| Overrun            (* a read stored past the end of the receive buffer *)
| Unfinished.        (* the bound on the number of turns was too small *)
#[global] Arguments Done {A} a.
#[global] Arguments Overrun {A}.
#[global] Arguments Unfinished {A}.

(** the [do ... while (sock.state() == ConnectedState && sock.bytesAvailable())];
    a read that fails takes no byte from the socket *)
Fixpoint socketRead_loop (fuel : nat) (now : Z) (fails : bool) (c : Conn)
    (available : bytes) : Run (Conn * bytes) :=
  match fuel with
  | O => Unfinished
  | S fuel =>
      let n := Z.to_nat (toRead (asm c)) in
      match turn now fails c (firstn n available) with
      | TurnOverrun => Overrun
      | TurnUnfinished => Unfinished
      | TurnReturn c => Done (c, if fails then available else skipn n available)
      | TurnAgain c =>
          match skipn n available with
          | [] => Done (c, [])
          | rest => socketRead_loop fuel now fails c rest
          end
      end
  end.

(** [AbstractTCPConnection::socketRead]: the connection afterwards and the
    bytes left in the socket; the socket keeps its state for the length of
    the call.  Every turn of the loop that goes round again has taken at
    least one byte, so one turn per available byte (and one to start with)
    is enough. *)
Definition socketRead (now : Z) (sock : Socket) (c : Conn) : Run (Conn * bytes) :=
  match sock_state sock with
  | ConnectedState =>
      socketRead_loop (S (length (sock_available sock))) now (sock_read_fails sock)
                      c (sock_available sock)
  | _ => Done (emit (EmitError kErrorCodeOther) c, sock_available sock)
  end.

(** the stream arrives in [chunks]; [readyRead] calls [socketRead] after each *)
Fixpoint receive (now : Z) (c : Conn) (unread : bytes) (chunks : list bytes) : Run Conn :=
  match chunks with
  | [] => Done c
  | chunk :: later =>
      match socketRead now (mkSock ConnectedState (unread ++ chunk) false) c with
      | Done (c, unread) => receive now c unread later
      | Overrun => Overrun
      | Unfinished => Unfinished
      end
  end.

(** ** The life of a connection *)

(** what can happen to a connection: a call of its owner, a signal of the
    socket, or the expiry of the retry timer while it runs *)
Inductive step : Conn -> Conn -> Prop :=
| step_connectToServer secret dc c :
    step c (connectToServer secret dc c)
| step_onSocketConnected now random c c' :
    onSocketConnected now random c = Some c' -> step c c'
| step_timerExpires state c :
    tcpTimeoutTimer c <> None -> step c (timerExpires state c)
| step_onSocketDisconnected c :
    step c (onSocketDisconnected c)
| step_sendData random buffer c c' :
    sendData random c buffer = Some c' -> step c c'
| step_socketRead now sock c c' unread :
    socketRead now sock c = Done (c', unread) -> step c c'
| step_disconnectFromServer c :
    step c (disconnectFromServer c)
| step_socketError c :
    step c (socketError c).


(** [c'] has the retry timeout of [c], and its timer either as in [c] or
    stopped *)
Definition keeps_timeout (c c' : Conn) : Prop :=
  _tcpTimeout c' = _tcpTimeout c
  /\ (tcpTimeoutTimer c' = tcpTimeoutTimer c \/ tcpTimeoutTimer c' = None).

Definition scan_conn (r : Scan) : Conn :=
  match r with ScanError c | ScanWait c | ScanNext c => c end.


(** the values the stored timeout takes, and its sign while the timer runs *)
Definition backoff_ok (c : Conn) : Prop :=
  In (Z.abs (_tcpTimeout c))
     [kMinReceiveTimeout; 2 * kMinReceiveTimeout; 4 * kMinReceiveTimeout]
  /\ (tcpTimeoutTimer c <> None -> 0 < _tcpTimeout c).

(** ** Accessors *)


(** ** Vocabulary of the properties *)

(** signals to the owner, as opposed to calls on the socket *)
Definition is_signal (o : Output) : bool :=
  match o with
  | EmitError _ | EmitConnected | EmitDisconnected | EmitReceivedData
  | EmitReceivedSome => true
  | _ => false
  end.


(** how often a kind of entry occurs in a log *)
Definition occurrences (kind : Output -> bool) (log : list Output) : nat :=
  length (filter kind log).

(** [c'] has the send side, the secret and the probe nonce of [c], and its
    log is the log of [c] followed by signals only *)
Definition only_signals_since (c c' : Conn) : Prop :=
  packetNum (obf c') = packetNum (obf c)
  /\ _sendKey (obf c') = _sendKey (obf c)
  /\ _sendState (obf c') = _sendState (obf c)
  /\ _receiveKey (obf c') = _receiveKey (obf c)
  /\ _protocolSecret (obf c') = _protocolSecret (obf c)
  /\ _protocolDcId (obf c') = _protocolDcId (obf c)
  /\ tcpNonce c' = tcpNonce c
  /\ exists signals, out c' = out c ++ signals /\ forallb is_signal signals = true.

(** the values of an [mtpPrime] *)
Definition is_int32 (w : Z) : Prop := -2147483648 <= w < 2147483648.


(** what a closed connection never adds to the log *)
Definition is_traffic (o : Output) : bool :=
  match o with
  | SockWrite _ | EmitConnected | EmitDisconnected | EmitReceivedData => true
  | _ => false
  end.

(** [c'] is as closed as [c], with the same queue, and its log is the log
    of [c] followed by entries that are no traffic *)
Definition quiet_since (c c' : Conn) : Prop :=
  status c' = FinishedWork
  /\ _receivedQueue c' = _receivedQueue c
  /\ exists events, out c' = out c ++ events
                    /\ occurrences is_traffic events = 0%nat.


(** a complete frame as [socketRead] recognises it: its header declares its
    own length, within the bounds *)
Definition frame_ok (f : bytes) : Prop :=
  5 <= zlen f <= MTPPacketSizeMax /\ tcpPacketSize f = zlen f.

(** the cipher works like a keystream: enciphering a sequence of bytes in
    two calls gives what one call gives, and keeps the length *)
Definition cipher_is_stream : Prop :=
  forall (a b key : bytes) (s : CTRState),
    aesCtrEncrypt (a ++ b) key s
    = (fst (aesCtrEncrypt a key s)
         ++ fst (aesCtrEncrypt b key (snd (aesCtrEncrypt a key s))),
       snd (aesCtrEncrypt b key (snd (aesCtrEncrypt a key s))))
    /\ length (fst (aesCtrEncrypt a key s)) = length a.

(** the connection [c] in the middle of receiving: [k] [receivedSome]
    signals raised, receive cipher state [st], receive buffer [a] *)
Definition listening (c : Conn) (k : nat) (st : CTRState) (a : Assembler) : Conn :=
  with_asm a
    (with_obf (mkObf (packetNum (obf c)) (_sendKey (obf c)) (_sendState (obf c))
                     (_receiveKey (obf c)) st (_protocolSecret (obf c))
                     (_protocolDcId (obf c)))
       (Nat.iter k (emit EmitReceivedSome) c)).

(** the receive buffer holds the first bytes [prefix] of the frame [f], from
    its start on, and nothing else: either the header is not complete yet,
    or the frame's length is known and [packetLeft] bytes are awaited *)
Definition collecting (f prefix : bytes) (a : Assembler) : Prop :=
  packetRead a = zlen prefix
  /\ currentPos a = zlen prefix
  /\ zlen (shortBuffer a) = MTPShortBufferSize * 4
  /\ firstn (length prefix) (active a) = prefix
  /\ zlen prefix < zlen f
  /\ ((packetLeft a = 0 /\ zlen prefix < 4 /\ readingToShort a = true)
      \/ (packetLeft a = zlen f - zlen prefix /\ 4 <= zlen prefix)).

(** the receive buffer between frames: empty, on the short buffer *)
Definition assembler_idle (a : Assembler) : Prop :=
  packetRead a = 0 /\ packetLeft a = 0 /\ readingToShort a = true
  /\ currentPos a = 0 /\ zlen (shortBuffer a) = MTPShortBufferSize * 4
  /\ longBuffer a = [].

(** the cipher works in place: it gives as many bytes as it takes *)
Definition cipher_keeps_length : Prop :=
  forall (data key : bytes) (s : CTRState),
    length (fst (aesCtrEncrypt data key s)) = length data.

(** the state of the receive buffer between two reads of a connection that
    has not raised a transport error: the counters are within the bounds,
    fewer than four bytes are held while no frame is awaited, [currentPos]
    is inside the short buffer, and in the long buffer it is at the end of
    the bytes read *)
Definition buffer_safe (a : Assembler) : Prop :=
  zlen (shortBuffer a) = MTPShortBufferSize * 4
  /\ 0 <= packetRead a /\ 0 <= packetLeft a
  /\ packetRead a + packetLeft a <= MTPPacketSizeMax
  /\ (packetLeft a = 0 -> packetRead a < 4)
  /\ (if readingToShort a
      then packetRead a <= currentPos a <= MTPShortBufferSize * 4
      else currentPos a = packetRead a).

(** the last thing the connection did was to raise [error(kErrorCodeOther)] *)
Definition raised_error (c : Conn) : Prop :=
  exists log, out c = log ++ [EmitError kErrorCodeOther].

End Transport.

(** ** A concrete instance of the parameters

    The buffer sizes and the error code are those of the client; the cipher
    is a counter-indexed XOR keystream, the hash a 32-byte checksum, and the
    probe carries its nonce in one word.  The instance serves to run the
    model on concrete inputs. *)

Definition sample_keystream (key : bytes) (s : CTRState) (i : nat) : byte :=
  (byte_at key 0 + byte_at (ivec s) 0 + 7 * (num s + Z.of_nat i) + 13) mod 256.

Definition sample_cipher (data key : bytes) (s : CTRState) : bytes * CTRState :=
  (map (fun p => Z.lxor (fst p) (sample_keystream key s (snd p)))
       (combine data (seq 0 (length data))),
   mkCTR (ivec s) (num s + zlen data) (ecount s)).

Definition sample_hash (p : bytes) : bytes :=
  map (fun i => (fold_right Z.add 0 p + Z.of_nat i) mod 256) (seq 0 32).

Definition sample_probe (nonce : Z) : mtpBuffer := [0; 0; 1615239032; nonce; 0].

Definition sample_reply (data : mtpBuffer) : option Z :=
  match data with
  | 85337187 :: nonce :: _ => Some nonce
  | _ => None
  end.

Definition sample : Externals :=
  {| MTPShortBufferSize := 65;
     MTPPacketSizeMax := 67108864;
     kErrorCodeOther := -499;
     aesCtrEncrypt := sample_cipher;
     Sha256 := sample_hash;
     preparePQFake := sample_probe;
     readPQFakeReply := sample_reply |}.

(** * Properties *)

(** ** Arithmetic of the embedding *)

Lemma u32_small (x : Z) : 0 <= x < 4294967296 -> u32 x = x.
Proof. intros H. unfold u32. change (2 ^ 32) with 4294967296. apply Z.mod_small; lia. Qed.

Lemma i32_small (x : Z) : -2147483648 <= x < 2147483648 -> i32 x = x.
Proof.
  intros H. unfold i32. change (2 ^ 31) with 2147483648. change (2 ^ 32) with 4294967296.
  rewrite Z.mod_small; lia.
Qed.

Lemma u8_small (x : Z) : 0 <= x < 256 -> u8 x = x.
Proof. intros H. unfold u8. change (2 ^ 8) with 256. apply Z.mod_small; lia. Qed.

Lemma land_255 (x : Z) : Z.land x 255 = x mod 256.
Proof. change 255 with (Z.ones 8). rewrite Z.land_ones by lia. reflexivity. Qed.

Lemma shiftr_div (x n : Z) : 0 <= n -> Z.shiftr x n = x / 2 ^ n.
Proof. intros. apply Z.shiftr_div_pow2; lia. Qed.

Lemma lor_shiftl_low (a b n : Z) :
  0 <= n -> 0 <= b < 2 ^ n -> Z.lor (Z.shiftl a n) b = a * 2 ^ n + b.
Proof.
  intros Hn Hb.
  assert (Hland : Z.land (Z.shiftl a n) b = 0).
  { apply Z.bits_inj'. intros k Hk. rewrite Z.land_spec, Z.bits_0.
    destruct (Z.lt_ge_cases k n) as [Hlt | Hge].
    - rewrite Z.shiftl_spec_low by lia. reflexivity.
    - rewrite <- (Z.mod_small b (2 ^ n)) by lia.
      rewrite Z.mod_pow2_bits_high by lia. apply andb_false_r. }
  rewrite <- Z.lxor_lor by exact Hland.
  rewrite <- Z.add_nocarry_lxor by exact Hland.
  rewrite Z.shiftl_mul_pow2 by lia. reflexivity.
Qed.

(** the 24-bit size of a long header, from its three bytes *)
Lemma size24_value (b1 b2 b3 : Z) :
  is_byte b1 -> is_byte b2 -> is_byte b3 ->
  u32 (Z.lor (u32 (Z.shiftl (Z.lor (u32 (Z.shiftl b3 8)) b2) 8)) b1)
  = b3 * 65536 + b2 * 256 + b1.
Proof.
  unfold is_byte. intros H1 H2 H3.
  rewrite (Z.shiftl_mul_pow2 b3 8) by lia. change (2 ^ 8) with 256.
  rewrite (u32_small (b3 * 256)) by lia.
  replace (b3 * 256) with (Z.shiftl b3 8) by (rewrite Z.shiftl_mul_pow2 by lia; reflexivity).
  rewrite (lor_shiftl_low b3 b2 8) by (change (2 ^ 8) with 256; lia).
  change (2 ^ 8) with 256.
  rewrite (Z.shiftl_mul_pow2 _ 8) by lia. change (2 ^ 8) with 256.
  rewrite (u32_small ((b3 * 256 + b2) * 256)) by lia.
  replace ((b3 * 256 + b2) * 256) with (Z.shiftl (b3 * 256 + b2) 8)
    by (rewrite Z.shiftl_mul_pow2 by lia; reflexivity).
  rewrite (lor_shiftl_low _ b1 8) by (change (2 ^ 8) with 256; lia).
  change (2 ^ 8) with 256.
  rewrite u32_small by lia. lia.
Qed.

Lemma shiftl2_small (x : Z) : 0 <= x < 1073741824 -> u32 (Z.shiftl x 2) = x * 4.
Proof.
  intros H. rewrite Z.shiftl_mul_pow2 by lia. change (2 ^ 2) with 4.
  apply u32_small. lia.
Qed.

(** ** PacketSizeCodec *)

Lemma encode_header_eq (size : Z) :
  encode_header size =
  if size <? 0x7f then [u8 size]
  else [0x7f; u8 (Z.land size 0xFF); u8 (Z.land (Z.shiftr size 8) 0xFF);
        u8 (Z.land (Z.shiftr size 16) 0xFF)].
Proof.
  unfold encode_header, write_header. destruct (size <? 0x7f); reflexivity.
Qed.

Lemma long_header_bytes (size : Z) :
  0 <= size < 16777216 ->
  let b1 := u8 (Z.land size 0xFF) in
  let b2 := u8 (Z.land (Z.shiftr size 8) 0xFF) in
  let b3 := u8 (Z.land (Z.shiftr size 16) 0xFF) in
  is_byte b1 /\ is_byte b2 /\ is_byte b3 /\ b3 * 65536 + b2 * 256 + b1 = size
  /\ b1 = size mod 256 /\ b2 = size / 256 mod 256 /\ b3 = size / 65536.
Proof.
  intros H b1 b2 b3. subst b1 b2 b3. unfold is_byte.
  change 0xFF with 255. rewrite !land_255.
  rewrite !shiftr_div by lia. change (2 ^ 8) with 256. change (2 ^ 16) with 65536.
  rewrite !u8_small by (apply Z.mod_pos_bound; lia).
  assert (H3 : size / 65536 mod 256 = size / 65536).
  { apply Z.mod_small. split; [apply Z.div_pos; lia | apply Z.div_lt_upper_bound; lia]. }
  rewrite H3.
  pose proof (Z.mod_pos_bound size 256 ltac:(lia)).
  pose proof (Z.mod_pos_bound (size / 256) 256 ltac:(lia)).
  assert (0 <= size / 65536 < 256)
    by (split; [apply Z.div_pos; lia | apply Z.div_lt_upper_bound; lia]).
  pose proof (Z.div_mod size 256 ltac:(lia)).
  pose proof (Z.div_mod (size / 256) 256 ltac:(lia)).
  assert (size / 256 / 256 = size / 65536) by (rewrite Z.div_div by lia; reflexivity).
  repeat split; try lia.
Qed.

(** the header written by [tcpSend], read back by [handleResponse] *)
Lemma decode_header_encode (word_count : Z) (payload : bytes) :
  0 <= word_count < 16777216 ->
  decode_header (encode_header word_count ++ payload)
  = (word_count, zlen (encode_header word_count)).
Proof.
  intros Hwc. rewrite encode_header_eq. unfold decode_header, read_header.
  destruct (Z.ltb_spec word_count 0x7f) as [Hs | Hl].
  - rewrite u8_small by lia.
    change (byte_at ([word_count] ++ payload) 0) with word_count.
    assert (Hschar : schar word_count = word_count)
      by (unfold schar; destruct (Z.ltb_spec word_count 128); lia).
    assert (Hne : (word_count =? 0x7f) = false) by (apply Z.eqb_neq; lia).
    rewrite Hschar, Hne. reflexivity.
  - destruct (long_header_bytes word_count Hwc) as (B1 & B2 & B3 & Hsum & _).
    set (b1 := u8 (Z.land word_count 0xFF)) in *.
    set (b2 := u8 (Z.land (Z.shiftr word_count 8) 0xFF)) in *.
    set (b3 := u8 (Z.land (Z.shiftr word_count 16) 0xFF)) in *.
    change (byte_at ([0x7f; b1; b2; b3] ++ payload) 0) with 0x7f.
    change (byte_at ([0x7f; b1; b2; b3] ++ payload) 1) with b1.
    change (byte_at ([0x7f; b1; b2; b3] ++ payload) 2) with b2.
    change (byte_at ([0x7f; b1; b2; b3] ++ payload) 3) with b3.
    change (schar 0x7f =? 0x7f) with true. cbv iota.
    rewrite size24_value by assumption. rewrite Hsum.
    rewrite i32_small by lia. reflexivity.
Qed.

(** C3.  For every word count in [0, 0xFFFFFF), the header [tcpSend] writes
    is read back by the header code of [handleResponse] as the same word
    count together with the header's length, the header is one byte exactly
    when the word count is below 0x7f and otherwise the marker 0x7f followed
    by the 24-bit little-endian word count, and [tcpPacketSize] computes the
    total frame length as header length plus four times the word count. *)
Theorem header_round_trip (word_count : Z) (payload : bytes) :
  0 <= word_count < 0xFFFFFF ->
  let header := encode_header word_count in
  decode_header (header ++ payload) = (word_count, zlen header)
  /\ (zlen header = 1 <-> word_count < 0x7f)
  /\ (zlen header = 1 \/ zlen header = 4)
  /\ (0x7f <= word_count ->
      header = [0x7f; word_count mod 256; word_count / 256 mod 256; word_count / 65536])
  /\ tcpPacketSize (header ++ payload) = zlen header + word_count * 4.
Proof.
  intros Hwc header. split; [apply decode_header_encode; lia |].
  subst header. rewrite encode_header_eq.
  destruct (Z.ltb_spec word_count 0x7f) as [Hs | Hl].
  - rewrite u8_small by lia.
    repeat split; try (intros; lia); try (left; reflexivity).
    unfold tcpPacketSize.
    change (byte_at ([word_count] ++ payload) 0) with word_count.
    assert (Hschar : schar word_count = word_count)
      by (unfold schar; destruct (Z.ltb_spec word_count 128); lia).
    rewrite Hschar.
    destruct (Z.gtb_spec word_count 0).
    + rewrite (u32_small word_count) by lia.
      replace (word_count =? 0x7f) with false by (symmetry; apply Z.eqb_neq; lia).
      rewrite shiftl2_small by lia. rewrite u32_small by lia.
      unfold zlen; cbn [length]; lia.
    + replace word_count with 0 by lia. reflexivity.
  - destruct (long_header_bytes word_count ltac:(lia))
      as (B1 & B2 & B3 & Hsum & E1 & E2 & E3).
    set (b1 := u8 (Z.land word_count 0xFF)) in *.
    set (b2 := u8 (Z.land (Z.shiftr word_count 8) 0xFF)) in *.
    set (b3 := u8 (Z.land (Z.shiftr word_count 16) 0xFF)) in *.
    repeat split; try (right; reflexivity).
    + unfold zlen; cbn [length]; lia.
    + unfold zlen; cbn [length]; lia.
    + intros _. rewrite E1, E2, E3. reflexivity.
    + unfold tcpPacketSize.
      change (byte_at ([0x7f; b1; b2; b3] ++ payload) 0) with 0x7f.
      change (byte_at ([0x7f; b1; b2; b3] ++ payload) 1) with b1.
      change (byte_at ([0x7f; b1; b2; b3] ++ payload) 2) with b2.
      change (byte_at ([0x7f; b1; b2; b3] ++ payload) 3) with b3.
      change (u32 (if schar 0x7f >? 0 then schar 0x7f else 0) =? 0x7f) with true.
      cbv iota. rewrite size24_value by assumption. rewrite Hsum.
      rewrite shiftl2_small by lia. rewrite u32_small by lia.
      unfold zlen; cbn [length]; lia.
Qed.

Lemma header_round_trip_witness :
  decode_header (encode_header 300 ++ [1; 2; 3]) = (300, 4)
  /\ tcpPacketSize (encode_header 300 ++ [1; 2; 3]) = 1204.
Proof.
  destruct (header_round_trip 300 [1; 2; 3] ltac:(lia)) as (H1 & _ & _ & _ & H5).
  split; [exact H1 | exact H5].
Defined.

(** ** Decoding one frame *)

Lemma byte_at_is_byte (p : bytes) (i : Z) : all_bytes p -> is_byte (byte_at p i).
Proof.
  intros H. unfold byte_at. destruct (nth_in_or_default (Z.to_nat i) p 0) as [Hin | ->].
  - unfold all_bytes in H. rewrite Forall_forall in H. apply H, Hin.
  - unfold is_byte; lia.
Qed.

(** the two header forms, as [handleResponse] reads them *)
Lemma read_header_cases (packet : bytes) (length : Z) :
  all_bytes packet -> 4 <= length < 2147483648 ->
  exists size hdr,
    decode_header packet = (size, hdr)
    /\ read_header packet length = (size, length - hdr)
    /\ (hdr = 1 \/ hdr = 4) /\ -128 <= size < 16777216.
Proof.
  intros Hb Hlen. unfold decode_header, read_header.
  pose proof (byte_at_is_byte packet 0 Hb) as H0.
  pose proof (byte_at_is_byte packet 1 Hb) as H1.
  pose proof (byte_at_is_byte packet 2 Hb) as H2.
  pose proof (byte_at_is_byte packet 3 Hb) as H3.
  assert (Hs : -128 <= schar (byte_at packet 0) < 128).
  { unfold schar, is_byte in *. destruct (Z.ltb_spec (byte_at packet 0) 128); lia. }
  destruct (schar (byte_at packet 0) =? 0x7f) eqn:Hlong.
  - rewrite size24_value by assumption.
    unfold is_byte in *.
    rewrite (i32_small (_ + _)) by lia.
    rewrite (i32_small (4 - 1)) by lia.
    rewrite (i32_small (4 - 1 - 3)) by lia.
    rewrite (i32_small (length - 1)) by lia.
    rewrite (i32_small (length - 1 - 3)) by lia.
    eexists _, _. split; [reflexivity |]. split; [f_equal; lia |]. lia.
  - rewrite (i32_small (4 - 1)) by lia.
    rewrite (i32_small (length - 1)) by lia.
    eexists _, _. split; [reflexivity |]. split; [f_equal; lia |]. lia.
Qed.


(** [tcpPacketSize] agrees with the header [handleResponse] reads whenever
    the first byte, read as a [char], is positive; otherwise it is 1 *)
Lemma tcpPacketSize_declared (packet : bytes) :
  all_bytes packet ->
  let '(size, hdr) := decode_header packet in
  tcpPacketSize packet = if schar (byte_at packet 0) >? 0 then hdr + size * 4 else 1.
Proof.
  intros Hb. unfold decode_header, read_header, tcpPacketSize.
  pose proof (byte_at_is_byte packet 0 Hb) as H0.
  pose proof (byte_at_is_byte packet 1 Hb) as H1.
  pose proof (byte_at_is_byte packet 2 Hb) as H2.
  pose proof (byte_at_is_byte packet 3 Hb) as H3.
  assert (Hs : -128 <= schar (byte_at packet 0) < 128).
  { unfold schar, is_byte in *. destruct (Z.ltb_spec (byte_at packet 0) 128); lia. }
  destruct (Z.gtb_spec (schar (byte_at packet 0)) 0) as [Hpos | Hneg].
  - rewrite (u32_small (schar _)) by lia.
    destruct (schar (byte_at packet 0) =? 0x7f) eqn:Hlong.
    + rewrite size24_value by assumption. unfold is_byte in *.
      rewrite shiftl2_small by lia. rewrite u32_small by lia.
      rewrite (i32_small (_ + _)) by lia.
      rewrite (i32_small (4 - 1)) by lia. rewrite (i32_small (4 - 1 - 3)) by lia. lia.
    + rewrite shiftl2_small by lia. rewrite u32_small by lia.
      rewrite (i32_small (4 - 1)) by lia. lia.
  - assert (Hne : (schar (byte_at packet 0) =? 0x7f) = false) by (apply Z.eqb_neq; lia).
    rewrite Hne. reflexivity.
Qed.

Section Decoding.
Context {E : Externals}.


End Decoding.

Section Packets.
Context {E : Externals}.

(** what [handleResponse] returns for a packet it does not reject *)
Lemma parseResponse_wellformed (packet : bytes) (length : Z) :
  5 <= MTPPacketSizeMax < 2147483648 ->
  all_bytes packet ->
  malformed (parseResponse packet length) = false ->
  let size := fst (decode_header packet) in
  let hdr := snd (decode_header packet) in
  5 <= length <= MTPPacketSizeMax
  /\ size * 4 = length - hdr
  /\ (hdr = 1 \/ hdr = 4)
  /\ parseResponse packet length =
     if size =? 1 then ErrorPacket (load_i32 packet hdr)
     else Packet (words_at packet hdr (Z.to_nat size)).
Proof.
  intros HMax Hb. unfold parseResponse.
  destruct (Z.ltb_spec length 5) as [Hlt | Hge]; simpl; [discriminate |].
  destruct (Z.gtb_spec length MTPPacketSizeMax) as [Hgt | Hle]; simpl; [discriminate |].
  destruct (read_header_cases packet length Hb ltac:(lia))
    as (sz & h & Hdh & Hrh & Hh & Hsz).
  rewrite Hdh, Hrh. simpl fst. simpl snd.
  rewrite (i32_small (sz * 4)) by lia.
  destruct (Z.eqb_spec (sz * 4) (length - h)) as [Heq | Hne]; simpl; [| discriminate].
  intros _. rewrite (u32_small (length - (length - h))) by lia.
  replace (length - (length - h)) with h by lia.
  repeat split; try lia; assumption.
Qed.

(** C10.  A frame that decodes to exactly one word (in particular every
    well-formed 5-byte frame) is never put on [_receivedQueue], whatever the
    phase of the connection; once [socketPacket] has decoded it, in any
    phase, [error] is raised with that word as the code and nothing else is
    done.  ([socketPacket] decodes every packet it is given unless the
    connection is [FinishedWork], where it returns at once.) *)
Theorem one_word_frame_is_error (now : Z) (c : Conn) (packet : bytes) (length : Z) :
  5 <= MTPPacketSizeMax < 2147483648 ->
  all_bytes packet ->
  malformed (parseResponse packet length) = false ->
  fst (decode_header packet) = 1 \/ length = 5 ->
  let word := load_i32 packet (snd (decode_header packet)) in
  let c' := socketPacket now c packet length in
  handleResponse packet length = [word]
  /\ packetDecoded now c (handleResponse packet length) = emit (EmitError word) c
  /\ _receivedQueue c' = _receivedQueue c
  /\ ~ In EmitReceivedData (skipn (List.length (out c)) (out c'))
  /\ (status c <> FinishedWork -> c' = emit (EmitError word) c)
  /\ (status c = FinishedWork -> c' = c).
Proof.
  intros HMax Hb Hok Hone word c'.
  destruct (parseResponse_wellformed packet length HMax Hb Hok)
    as (Hlen & Hsize & Hhdr & Hparse).
  assert (H1 : fst (decode_header packet) = 1) by lia.
  rewrite H1 in Hparse. simpl in Hparse.
  assert (Hdata : handleResponse packet length = [word]).
  { unfold handleResponse. rewrite Hparse. reflexivity. }
  assert (Hrun : status c <> FinishedWork -> c' = emit (EmitError word) c).
  { intros Hst. subst c'. unfold socketPacket.
    destruct (status c) eqn:Est; try congruence; simpl; rewrite Hdata; reflexivity. }
  assert (Hfin : status c = FinishedWork -> c' = c).
  { intros Hst. subst c'. unfold socketPacket. rewrite Hst. reflexivity. }
  assert (Hskip : forall o, skipn (List.length (out c)) (out c ++ [o]) = [o]).
  { intros o. rewrite skipn_app, skipn_all, Nat.sub_diag. reflexivity. }
  split; [assumption |].
  split; [rewrite Hdata; reflexivity |].
  split; [| split; [| split; assumption]].
  - destruct (status c) eqn:Est.
    + rewrite Hrun by congruence. reflexivity.
    + rewrite Hrun by congruence. reflexivity.
    + rewrite Hfin by reflexivity. reflexivity.
  - destruct (status c) eqn:Est.
    + rewrite Hrun by congruence. simpl. rewrite Hskip. simpl. intuition discriminate.
    + rewrite Hrun by congruence. simpl. rewrite Hskip. simpl. intuition discriminate.
    + rewrite Hfin by reflexivity. rewrite skipn_all. simpl. tauto.
Qed.

(** C1, amended.  A frame received in [WaitingTcp] that reaches the probe
    check (its decoded buffer is not a single word) first stops the retry
    timer.  On a nonce mismatch nothing else happens: no signal, no call on
    the socket, nothing queued, the status stays [WaitingTcp].  On a parse
    failure [error(kErrorCodeOther)] is raised; there is no call on the
    socket and the status stays [WaitingTcp]. *)
Theorem probe_response_not_confirming (now : Z) (c : Conn) (packet : bytes) (length : Z) :
  status c = WaitingTcp ->
  let data := handleResponse packet length in
  zlen data <> 1 ->
  let c' := socketPacket now c packet length in
  (forall vnonce, readPQFakeReply data = Some vnonce -> vnonce <> tcpNonce c ->
     c' = with_timer None c /\ out c' = out c)
  /\ (readPQFakeReply data = None ->
      c' = emit (EmitError kErrorCodeOther) (with_timer None c)
      /\ out c' = out c ++ [EmitError kErrorCodeOther])
  /\ ((exists vnonce, readPQFakeReply data = Some vnonce /\ vnonce = tcpNonce c)
      \/ (status c' = WaitingTcp /\ tcpTimeoutTimer c' = None
          /\ _receivedQueue c' = _receivedQueue c /\ _tcpTimeout c' = _tcpTimeout c)).
Proof.
  intros Hst data Hlen c'. subst c'. unfold socketPacket, packetDecoded. rewrite Hst. simpl.
  fold data. apply Z.eqb_neq in Hlen. rewrite Hlen.
  destruct (readPQFakeReply data) as [v |] eqn:Hreply.
  - destruct (Z.eqb_spec v (tcpNonce c)) as [Heq | Hne].
    + split; [intros v' Hv' Hne'; congruence |]. split; [discriminate |].
      left. exists v. split; [reflexivity | assumption].
    + split; [intros v' Hv' Hne'; split; reflexivity |]. split; [discriminate |].
      right. simpl. rewrite Hst. repeat split; reflexivity.
  - split; [discriminate |]. split; [intros _; split; reflexivity |].
    right. simpl. rewrite Hst. repeat split; reflexivity.
Qed.

End Packets.

(** ** The handshake nonce *)

Lemma generate_nonce_sound (random : list bytes) (nonce : bytes) :
  generate_nonce random = Some nonce ->
  In nonce random /\ nonce_rejected nonce = false.
Proof.
  induction random as [| cand later IH]; simpl; [discriminate |].
  destruct (nonce_rejected cand) eqn:Hrej.
  - intros H. destruct (IH H). split; [right |]; assumption.
  - intros H. injection H as <-. split; [left; reflexivity | assumption].
Qed.

Lemma generate_nonce_returns (random : list bytes) :
  Exists (fun cand => nonce_rejected cand = false) random ->
  exists nonce, generate_nonce random = Some nonce.
Proof.
  induction 1 as [cand later Hok | cand later _ IH]; simpl.
  - rewrite Hok. eexists; reflexivity.
  - destruct (nonce_rejected cand); [exact IH | eexists; reflexivity].
Qed.

(** C8, amended.  The nonce the loop of [writeConnectionStart] returns is one
    of the 64-byte draws; its first byte is not 0xEF, its first 32-bit word
    is none of [reserved11 .. reserved15], and its second 32-bit word is not
    zero.  The loop returns as soon as a draw passes these tests. *)
Theorem nonce_free_of_checked_patterns (random : list bytes) :
  Forall (fun cand => length cand = 64%nat) random ->
  (Exists (fun cand => nonce_rejected cand = false) random ->
   exists nonce, generate_nonce random = Some nonce)
  /\ (forall nonce, generate_nonce random = Some nonce ->
      In nonce random
      /\ length nonce = 64%nat
      /\ byte_at nonce 0 <> 0xEF
      /\ ~ In (load_u32 nonce 0) reserved_first
      /\ load_u32 nonce 4 <> 0).
Proof.
  intros Hlen. split; [apply generate_nonce_returns |].
  intros nonce Hgen. destruct (generate_nonce_sound random nonce Hgen) as [Hin Hrej].
  split; [assumption |].
  split; [rewrite Forall_forall in Hlen; apply Hlen, Hin |].
  unfold nonce_rejected in Hrej.
  repeat (apply orb_false_iff in Hrej; destruct Hrej as [Hrej ?]).
  repeat match goal with H : (_ =? _) = false |- _ => apply Z.eqb_neq in H end.
  split; [assumption |]. split; [| assumption].
  unfold reserved_first. simpl. intuition congruence.
Qed.

(** ** The handshake write and the key derivation *)

Lemma copy_same_length (dst src : bytes) : length src = length dst -> copy dst src = src.
Proof.
  intros H. unfold copy. rewrite skipn_all2 by lia. rewrite app_nil_r.
  apply firstn_all2. lia.
Qed.

Lemma map_zero (key : bytes) : map (fun _ => 0) key = repeat 0 (length key).
Proof. induction key; simpl; [reflexivity | f_equal; assumption]. Qed.

(** a list of known length, element by element *)
Ltac explode l H :=
  repeat (destruct l as [| ? l]; [simpl in H; discriminate H |]);
  destruct l; [clear H | simpl in H; discriminate H].

Section Handshake.
Context {E : Externals}.

(** C2.  [writeConnectionStart] first writes the first 56 bytes of the nonce
    unencrypted; the marker 0xEFEFEFEF at offset 56 and the 16-bit
    datacenter id at offset 60 are stored before the cipher is applied; the
    send cipher then runs over all 64 bytes and the second write is bytes
    [56, 64) of its result. *)
Theorem handshake_write (random : list bytes) (c : Conn) (nonce : bytes) :
  generate_nonce random = Some nonce ->
  length nonce = 64%nat ->
  exists c' sendKey sendState,
    writeConnectionStart random c = Some c'
    /\ sendKey = _sendKey (obf c')
    /\ sendState = set_ivec (_sendState (obf c)) (sub nonce 40 16)
    /\ length (marked nonce (_protocolDcId (obf c))) = 64%nat
    /\ sub (marked nonce (_protocolDcId (obf c))) 0 56 = firstn 56 nonce
    /\ let encrypted := fst (aesCtrEncrypt (marked nonce (_protocolDcId (obf c)))
                                           sendKey sendState) in
       out c' = out c ++ [SockWrite (firstn 56 nonce); SockWrite (sub encrypted 56 8)]
       /\ _sendState (obf c')
          = snd (aesCtrEncrypt (marked nonce (_protocolDcId (obf c))) sendKey sendState).
Proof.
  intros Hgen Hlen. unfold writeConnectionStart. rewrite Hgen.
  explode nonce Hlen.
  match goal with
  | |- context [aesCtrEncrypt ?b ?k ?s] => destruct (aesCtrEncrypt b k s) as [enc st] eqn:Henc
  end.
  eexists _, _, _. split; [reflexivity |].
  split; [reflexivity |]. split; [reflexivity |].
  split; [reflexivity |]. split; [reflexivity |].
  cbv zeta.
  match goal with
  | |- context [aesCtrEncrypt ?b ?k ?s] =>
      replace (aesCtrEncrypt b k s) with (enc, st) by (rewrite <- Henc; reflexivity)
  end.
  split; simpl; [rewrite <- app_assoc |]; reflexivity.
Qed.

Lemma prepareKey_derived (secret key source : bytes) :
  (forall p, length (Sha256 p) = 32%nat) ->
  length key = 32%nat -> length source = 32%nat ->
  prepareKey secret key source = derived_key secret source.
Proof.
  intros Hsha Hkey Hsrc. unfold prepareKey, derived_key.
  destruct (zlen secret =? 16).
  - apply copy_same_length. rewrite Hsha, Hkey. reflexivity.
  - destruct (zlen secret =? 0).
    + apply copy_same_length. rewrite Hsrc, Hkey. reflexivity.
    + rewrite map_zero, Hkey. reflexivity.
Qed.

(** C7.  The send key source is nonce bytes [8, 40) and the send IV bytes
    [40, 56); the receive key source and IV are bytes [8, 40) and [40, 56)
    of the byte-reversed nonce, that is the reversed 48-byte middle region
    split 32 + 16; each key is SHA-256(source || secret) for a 16-byte
    secret, the source itself for an empty secret and 32 zero bytes for any
    other secret length. *)
Theorem key_derivation (random : list bytes) (c : Conn) (nonce : bytes) :
  generate_nonce random = Some nonce ->
  length nonce = 64%nat ->
  (forall p, length (Sha256 p) = 32%nat) ->
  length (_sendKey (obf c)) = 32%nat ->
  length (_receiveKey (obf c)) = 32%nat ->
  length (ivec (_sendState (obf c))) = 16%nat ->
  length (ivec (_receiveState (obf c))) = 16%nat ->
  let secret := _protocolSecret (obf c) in
  let send_source := sub nonce 8 32 in
  let send_iv := sub nonce 40 16 in
  let receive_source := sub (rev nonce) 8 32 in
  let receive_iv := sub (rev nonce) 40 16 in
  exists c',
    writeConnectionStart random c = Some c'
    /\ receive_source ++ receive_iv = rev (sub nonce 8 48)
    /\ _sendKey (obf c') = derived_key secret send_source
    /\ _receiveKey (obf c') = derived_key secret receive_source
    /\ _receiveState (obf c')
       = mkCTR receive_iv (num (_receiveState (obf c))) (ecount (_receiveState (obf c)))
    /\ _sendState (obf c')
       = snd (aesCtrEncrypt (marked nonce (_protocolDcId (obf c)))
                (derived_key secret send_source)
                (mkCTR send_iv (num (_sendState (obf c))) (ecount (_sendState (obf c)))))
    /\ (zlen secret = 16 ->
        derived_key secret send_source = Sha256 (send_source ++ secret)
        /\ derived_key secret receive_source = Sha256 (receive_source ++ secret))
    /\ (zlen secret = 0 ->
        derived_key secret send_source = send_source
        /\ derived_key secret receive_source = receive_source)
    /\ (zlen secret <> 16 -> zlen secret <> 0 ->
        derived_key secret send_source = repeat 0 32
        /\ derived_key secret receive_source = repeat 0 32).
Proof.
  intros Hgen Hlen Hsha Hsk Hrk Hsi Hri secret send_source send_iv receive_source receive_iv.
  unfold writeConnectionStart. rewrite Hgen. fold secret.
  explode nonce Hlen.
  rewrite !(prepareKey_derived secret) by (assumption || reflexivity).
  match goal with
  | |- context [aesCtrEncrypt ?b ?k ?s] => destruct (aesCtrEncrypt b k s) as [enc st] eqn:Henc
  end.
  eexists. split; [reflexivity |].
  split; [reflexivity |].
  split; [reflexivity |].
  split; [reflexivity |].
  split.
  { simpl. unfold set_ivec. f_equal. apply copy_same_length. rewrite Hri. reflexivity. }
  split.
  { simpl. change st with (snd (enc, st)). rewrite <- Henc. unfold set_ivec.
    rewrite copy_same_length by (rewrite Hsi; reflexivity). reflexivity. }
  unfold derived_key. repeat split; intros.
  - replace (zlen secret =? 16) with true by (symmetry; apply Z.eqb_eq; assumption).
    reflexivity.
  - replace (zlen secret =? 16) with true by (symmetry; apply Z.eqb_eq; assumption).
    reflexivity.
  - replace (zlen secret =? 16) with false by (symmetry; apply Z.eqb_neq; lia).
    replace (zlen secret =? 0) with true by (symmetry; apply Z.eqb_eq; assumption).
    reflexivity.
  - replace (zlen secret =? 16) with false by (symmetry; apply Z.eqb_neq; lia).
    replace (zlen secret =? 0) with true by (symmetry; apply Z.eqb_eq; assumption).
    reflexivity.
  - replace (zlen secret =? 16) with false by (symmetry; apply Z.eqb_neq; lia).
    replace (zlen secret =? 0) with false by (symmetry; apply Z.eqb_neq; lia).
    reflexivity.
  - replace (zlen secret =? 16) with false by (symmetry; apply Z.eqb_neq; lia).
    replace (zlen secret =? 0) with false by (symmetry; apply Z.eqb_neq; lia).
    reflexivity.
Qed.

End Handshake.

(** ** FrameSender *)

Lemma bytes_of_words_firstn (k : nat) (ws : mtpBuffer) :
  firstn (4 * k) (bytes_of_words ws) = bytes_of_words (firstn k ws).
Proof.
  revert ws. induction k as [| k IH]; intros ws; [reflexivity |].
  destruct ws as [| w ws]; [reflexivity |].
  replace (4 * S k)%nat with (S (S (S (S (4 * k))))) by lia.
  change (bytes_of_words (w :: ws)) with (bytes_of_prime w ++ bytes_of_words ws).
  change (firstn (S k) (w :: ws)) with (w :: firstn k ws).
  change (bytes_of_words (w :: firstn k ws))
    with (bytes_of_prime w ++ bytes_of_words (firstn k ws)).
  unfold bytes_of_prime, bytes_of_u32. cbn [app firstn]. rewrite IH. reflexivity.
Qed.

(** the frame [tcpSend] encrypts: the header for [n - 3] words, then the
    [n - 3] words of the buffer that start at its third word *)
Lemma outgoing_frame_eq (buffer : mtpBuffer) :
  3 <= zlen buffer -> zlen buffer - 3 < 16777216 ->
  outgoing_frame buffer
  = encode_header (zlen buffer - 3)
    ++ bytes_of_words (firstn (Z.to_nat (zlen buffer - 3)) (skipn 2 buffer)).
Proof.
  intros Hmin Hmax. unfold outgoing_frame.
  destruct buffer as [| w0 [| w1 rest]];
    [unfold zlen in Hmin; simpl in Hmin; lia | unfold zlen in Hmin; simpl in Hmin; lia |].
  set (n := zlen (w0 :: w1 :: rest)) in *.
  rewrite (u32_small (n - 3)) by lia.
  rewrite (u32_small ((n - 3) * 4)) by lia.
  rewrite encode_header_eq. unfold write_header.
  change (skipn 2 (w0 :: w1 :: rest)) with rest.
  change (bytes_of_words (w0 :: w1 :: rest))
    with (bytes_of_prime w0 ++ bytes_of_prime w1 ++ bytes_of_words rest).
  destruct (n - 3 <? 0x7f).
  - unfold bytes_of_prime at 1 2. unfold bytes_of_u32. cbn [app].
    rewrite (u32_small ((n - 3) * 4 + (8 - 7))) by lia.
    unfold upd, sub. change (Z.to_nat 7) with 7%nat. cbn [upd_nat skipn].
    replace (Z.to_nat ((n - 3) * 4 + (8 - 7))) with (S (4 * Z.to_nat (n - 3))) by lia.
    cbn [firstn app]. repeat f_equal. apply bytes_of_words_firstn.
  - unfold bytes_of_prime at 1 2. unfold bytes_of_u32. cbn [app].
    rewrite (u32_small ((n - 3) * 4 + (8 - 4))) by lia.
    unfold upd, sub. change (Z.to_nat 7) with 7%nat. change (Z.to_nat 6) with 6%nat.
    change (Z.to_nat 5) with 5%nat. change (Z.to_nat 4) with 4%nat.
    cbn [upd_nat skipn].
    replace (Z.to_nat ((n - 3) * 4 + (8 - 4)))
      with (S (S (S (S (4 * Z.to_nat (n - 3)))))) by lia.
    cbn [firstn app]. repeat f_equal. apply bytes_of_words_firstn.
Qed.

Section Sending.
Context {E : Externals}.

(** C6, amended.  While the connection is not [FinishedWork], [sendData]
    with a buffer of fewer than 3 words raises [error(kErrorCodeOther)] and
    writes nothing; with a buffer of [n >= 3] words (and [n - 3] below
    2^24) the size field on the wire is [n - 3] and the frame handed to the
    cipher is the encoded header followed by words [2, n - 1) of the
    buffer: its first two words and its last word are left out.  In
    [FinishedWork] [sendData] does nothing. *)
Theorem sendData_frame (random : list bytes) (c : Conn) (buffer : mtpBuffer) :
  (status c = FinishedWork -> sendData random c buffer = Some c)
  /\ (status c <> FinishedWork ->
      (zlen buffer < 3 ->
       sendData random c buffer = Some (emit (EmitError kErrorCodeOther) c))
      /\ (3 <= zlen buffer -> zlen buffer - 3 < 16777216 ->
          let size := zlen buffer - 3 in
          let payload := firstn (Z.to_nat size) (skipn 2 buffer) in
          let frame := encode_header size ++ bytes_of_words payload in
          fst (decode_header frame) = size
          /\ zlen payload = size
          /\ forall c1,
               (if packetNum (obf c) =? 0 then writeConnectionStart random c else Some c)
               = Some c1 ->
               exists c2,
                 sendData random c buffer = Some c2
                 /\ out c2 = out c1 ++ [SockWrite (fst (aesCtrEncrypt frame
                                           (_sendKey (obf c1)) (_sendState (obf c1))))]
                 /\ _sendState (obf c2)
                    = snd (aesCtrEncrypt frame (_sendKey (obf c1)) (_sendState (obf c1)))
                 /\ packetNum (obf c2) = u32 (packetNum (obf c1) + 1))).
Proof.
  split.
  - intros Hst. unfold sendData. rewrite Hst. reflexivity.
  - intros Hst.
    assert (Hne : Status_eqb (status c) FinishedWork = false)
      by (destruct (status c); simpl; congruence).
    split.
    + intros Hlt. unfold sendData. rewrite Hne.
      apply Z.ltb_lt in Hlt. rewrite Hlt. reflexivity.
    + intros Hmin Hmax size payload frame.
      split.
      { subst frame.
        rewrite (decode_header_encode size (bytes_of_words payload)) by lia.
        reflexivity. }
      split.
      { subst payload. unfold zlen. rewrite firstn_length_le.
        - subst size. lia.
        - rewrite length_skipn. unfold zlen in *. lia. }
      intros c1 Hstart. unfold sendData. rewrite Hne.
      replace (zlen buffer <? 3) with false by (symmetry; apply Z.ltb_ge; lia).
      unfold tcpSend. rewrite Hstart.
      rewrite outgoing_frame_eq by assumption. fold size. fold payload. fold frame.
      destruct (aesCtrEncrypt frame (_sendKey (obf c1)) (_sendState (obf c1)))
        as [sent st] eqn:Henc.
      eexists. split; [reflexivity |]. repeat split; reflexivity.
Qed.

End Sending.

(** ** The retry timeout *)

Section Backoff.
Context {E : Externals}.

Lemma keeps_timeout_refl (c : Conn) : keeps_timeout c c.
Proof. split; [reflexivity | left; reflexivity]. Qed.










Lemma backoff_ok_keeps (c c' : Conn) : keeps_timeout c c' -> backoff_ok c -> backoff_ok c'.
Proof.
  intros [Ht Htimer] [Hin Hpos]. unfold backoff_ok. rewrite Ht. split; [assumption |].
  destruct Htimer as [-> | ->]; [assumption | congruence].
Qed.







End Backoff.

(** ** The receive loop returns *)

Section Termination.
Context {E : Externals}.

Lemma u32_le (x : Z) : 0 <= x -> 0 <= u32 x <= x.
Proof.
  intros H. unfold u32. split.
  - apply Z.mod_pos_bound. reflexivity.
  - apply Z.mod_le; [assumption | reflexivity].
Qed.

Lemma scan_step_next (now : Z) (c c' : Conn) :
  scan_step now c = ScanNext c' -> packetRead (asm c') <= packetRead (asm c) - 5.
Proof.
  unfold scan_step.
  destruct (Z.ltb_spec (tcpPacketSize
              (skipn (Z.to_nat (currentPos (asm c) - packetRead (asm c))) (active (asm c)))) 5)
    as [Hlt | Hge]; simpl; [discriminate |].
  destruct (_ >? MTPPacketSizeMax); [discriminate |].
  destruct (Z.geb_spec (packetRead (asm c)) (tcpPacketSize
              (skipn (Z.to_nat (currentPos (asm c) - packetRead (asm c))) (active (asm c)))))
    as [Hfull | Hpart]; [| discriminate].
  intros H. injection H as <-. simpl.
  match goal with |- u32 ?x <= _ => pose proof (u32_le x ltac:(lia)) end. lia.
Qed.

Lemma scan_enough (fuel : nat) (now : Z) (c : Conn) (move : bool) :
  packetRead (asm c) <= Z.of_nat fuel -> scan fuel now c move <> None.
Proof.
  revert c move. induction fuel as [| fuel IH]; intros c move Hle; simpl.
  - destruct (Z.geb_spec (packetRead (asm c)) 4); [lia | discriminate].
  - destruct (Z.geb_spec (packetRead (asm c)) 4); [| discriminate].
    destruct (scan_step now c) as [c1 | c1 | c1] eqn:Hs; try discriminate.
    apply IH. apply scan_step_next in Hs. lia.
Qed.

Lemma turn_finishes (now : Z) (fails : bool) (c : Conn) (chunk : bytes) :
  turn now fails c chunk <> TurnUnfinished
  /\ (forall c', turn now fails c chunk = TurnAgain c' -> chunk <> []).
Proof.
  unfold turn.
  destruct fails; [split; [discriminate | intros; discriminate] |].
  destruct (Z.gtb_spec (zlen chunk) 0) as [Hpos | Hzero];
    [| split; [discriminate | intros; discriminate]].
  assert (Hne : chunk <> []) by (intros ->; unfold zlen in Hpos; simpl in Hpos; lia).
  split; [| intros; assumption].
  destruct (_ >? _); [discriminate |].
  destruct (aesCtrEncrypt _ _ _) as [plain st].
  destruct (negb _).
  - destruct (_ =? 0); discriminate.
  - match goal with
    | |- context [scan ?f ?n ?x ?mv] =>
        pose proof (scan_enough f n x mv) as Hscan;
        destruct (scan f n x mv) as [[[c1 | c1 | c1] m] |]
    end; try discriminate.
    exfalso. apply Hscan; [| reflexivity]. simpl. lia.
Qed.

Lemma socketRead_loop_finishes (fuel : nat) (now : Z) (fails : bool) (c : Conn)
    (available : bytes) :
  (length available < fuel)%nat ->
  socketRead_loop fuel now fails c available <> Unfinished.
Proof.
  revert c available. induction fuel as [| fuel IH]; intros c available Hlt; [lia |].
  simpl.
  destruct (turn_finishes now fails c (firstn (Z.to_nat (toRead (asm c))) available))
    as [Hfin Hagain].
  destruct (turn _ _ _ _) as [c1 | c1 | |]; try discriminate; [| congruence].
  specialize (Hagain c1 eq_refl).
  destruct (skipn _ available) as [| b rest] eqn:Hrest; [discriminate |].
  apply IH.
  assert (Hn : Z.to_nat (toRead (asm c)) <> 0%nat) by (intros H0; rewrite H0 in Hagain; auto).
  assert (Hlen : length (b :: rest) = (length available - Z.to_nat (toRead (asm c)))%nat)
    by (rewrite <- Hrest; apply length_skipn).
  cbn [length] in *. lia.
Qed.

(** [socketRead] always returns or overruns its buffer: the bound on the
    turns of its loop is never the reason it stops *)
Lemma socketRead_finishes (now : Z) (sock : Socket) (c : Conn) :
  socketRead now sock c <> Unfinished.
Proof.
  unfold socketRead. destruct (sock_state sock); try discriminate.
  apply socketRead_loop_finishes. lia.
Qed.

End Termination.

(** * Further properties of the transport *)

(** ** What every run of [socketRead] preserves *)

Section ReceivePreserves.
Context {E : Externals}.
Variable P : Conn -> Prop.
Hypothesis P_packet : forall now c packet length, P c -> P (socketPacket now c packet length).
Hypothesis P_error : forall c, P c -> P (emit (EmitError kErrorCodeOther) c).
Hypothesis P_some : forall c, P c -> P (emit EmitReceivedSome c).
Hypothesis P_asm : forall a c, P c -> P (with_asm a c).
Hypothesis P_receiveState : forall st c, P c ->
  P (with_obf (mkObf (packetNum (obf c)) (_sendKey (obf c)) (_sendState (obf c))
                     (_receiveKey (obf c)) st (_protocolSecret (obf c))
                     (_protocolDcId (obf c))) c).

Lemma scan_step_preserves (now : Z) (c : Conn) :
  P c -> P (scan_conn (scan_step now c)).
Proof.
  intros Hc. unfold scan_step.
  destruct (_ || _); [simpl; apply P_error, Hc |].
  destruct (_ >=? _); simpl.
  - apply P_asm, P_packet, Hc.
  - apply P_some, P_asm, Hc.
Qed.

Lemma scan_preserves (fuel : nat) (now : Z) (c : Conn) (move : bool) r m :
  scan fuel now c move = Some (r, m) -> P c -> P (scan_conn r).
Proof.
  revert c move. induction fuel as [| fuel IH]; intros c move; simpl.
  - destruct (_ >=? _); [discriminate |]. intros H Hc. injection H as <- <-. exact Hc.
  - destruct (_ >=? _).
    + intros H Hc. pose proof (scan_step_preserves now c Hc) as Hs.
      destruct (scan_step now c) as [c1 | c1 | c1]; simpl in Hs.
      * injection H as <- <-. exact Hs.
      * injection H as <- <-. exact Hs.
      * eapply IH; eassumption.
    + intros H Hc. injection H as <- <-. exact Hc.
Qed.

Lemma turn_preserves (now : Z) (fails : bool) (c : Conn) (chunk : bytes) :
  P c ->
  match turn now fails c chunk with
  | TurnAgain c' | TurnReturn c' => P c'
  | _ => True
  end.
Proof.
  intros Hc. unfold turn.
  destruct fails; [apply P_error, P_asm, Hc |].
  destruct (zlen chunk >? 0); [| apply P_asm, Hc].
  destruct (_ >? _); [exact I |].
  destruct (aesCtrEncrypt _ _ _) as [plain st].
  assert (Hstored : P (with_asm (store (make_room (asm c)) (zlen chunk) plain)
            (with_obf (mkObf (packetNum (obf (with_asm (make_room (asm c)) c)))
                         (_sendKey (obf (with_asm (make_room (asm c)) c)))
                         (_sendState (obf (with_asm (make_room (asm c)) c)))
                         (_receiveKey (obf (with_asm (make_room (asm c)) c))) st
                         (_protocolSecret (obf (with_asm (make_room (asm c)) c)))
                         (_protocolDcId (obf (with_asm (make_room (asm c)) c))))
               (with_asm (make_room (asm c)) c)))).
  { apply P_asm, P_receiveState, P_asm, Hc. }
  destruct (negb _).
  - destruct (_ =? 0).
    + apply P_asm, P_packet, Hstored.
    + apply P_some, P_asm, Hstored.
  - match goal with
    | |- context [scan ?f ?n ?x ?mv] => destruct (scan f n x mv) as [[r m] |] eqn:Hscan
    end; [| exact I].
    eapply scan_preserves in Hscan; [| exact Hstored].
    destruct r as [c1 | c1 | c1]; simpl in Hscan; [exact Hscan | |];
      destruct m; try exact Hscan; apply P_asm, Hscan.
Qed.

Lemma socketRead_loop_preserves (fuel : nat) (now : Z) (fails : bool) (c : Conn)
    (available : bytes) c' unread :
  socketRead_loop fuel now fails c available = Done (c', unread) -> P c -> P c'.
Proof.
  revert c available. induction fuel as [| fuel IH]; intros c available; simpl;
    [discriminate |].
  intros H Hc.
  pose proof (turn_preserves now fails c
                (firstn (Z.to_nat (toRead (asm c))) available) Hc) as Ht.
  destruct (turn _ _ _ _) as [c1 | c1 | |]; try discriminate.
  - destruct (skipn _ available) as [| b rest].
    + injection H as <- <-. exact Ht.
    + eapply IH; eassumption.
  - injection H as <- <-. exact Ht.
Qed.

(** a property kept by [socketPacket], by the two signals of the read loop
    and by changes to the receive buffer and the receive cipher state is
    kept by [socketRead] *)
Lemma socketRead_preserves (now : Z) (sock : Socket) (c c' : Conn) unread :
  socketRead now sock c = Done (c', unread) -> P c -> P c'.
Proof.
  unfold socketRead.
  destruct (sock_state sock);
    try (intros H Hc; injection H as <- <-; apply P_error, Hc).
  apply socketRead_loop_preserves.
Qed.

End ReceivePreserves.

(** ** Receiving raises signals only *)

Section ReceiveEffects.
Context {E : Externals}.

Lemma only_signals_refl (c : Conn) : only_signals_since c c.
Proof.
  unfold only_signals_since. repeat split.
  exists []. split; [symmetry; apply app_nil_r | reflexivity].
Qed.

Lemma only_signals_trans (a b c : Conn) :
  only_signals_since a b -> only_signals_since b c -> only_signals_since a c.
Proof.
  intros (A1 & A2 & A3 & A4 & A5 & A6 & A7 & sa & Ha & Fa)
         (B1 & B2 & B3 & B4 & B5 & B6 & B7 & sb & Hb & Fb).
  unfold only_signals_since. repeat split; try congruence.
  exists (sa ++ sb). split.
  - rewrite Hb, Ha. symmetry. apply app_assoc.
  - rewrite forallb_app, Fa, Fb. reflexivity.
Qed.

Lemma only_signals_emit (o : Output) (c : Conn) :
  is_signal o = true -> only_signals_since c (emit o c).
Proof.
  intros Ho. unfold only_signals_since. repeat split.
  exists [o]. split; [reflexivity | simpl; rewrite Ho; reflexivity].
Qed.

Lemma only_signals_packet (now : Z) (c : Conn) (packet : bytes) (length : Z) :
  only_signals_since c (socketPacket now c packet length).
Proof.
  unfold socketPacket, packetDecoded.
  destruct (Status_eqb (status c) FinishedWork); [apply only_signals_refl |].
  destruct (zlen (handleResponse packet length) =? 1);
    [apply only_signals_emit; reflexivity |].
  destruct (status c).
  - destruct (readPQFakeReply (handleResponse packet length)) as [v |].
    + destruct (v =? tcpNonce (with_timer None c)).
      * unfold only_signals_since. repeat split.
        exists [EmitConnected]. split; reflexivity.
      * unfold only_signals_since. repeat split.
        exists []. split; [symmetry; apply app_nil_r | reflexivity].
    + unfold only_signals_since. repeat split.
      exists [EmitError kErrorCodeOther]. split; reflexivity.
  - unfold only_signals_since. repeat split.
    exists [EmitReceivedData]. split; reflexivity.
  - apply only_signals_refl.
Qed.

(** X1.  Receiving never acts on the socket and never touches the send
    side: whatever [socketRead] is given, the packet counter, the send key
    and cipher state, the receive key, the secret, the datacenter id and the
    probe nonce are as before, and what it adds to the log are signals to
    the owner only (no write, connect, disconnect or close). *)
Theorem socketRead_only_signals (now : Z) (sock : Socket) (c c' : Conn) (unread : bytes) :
  socketRead now sock c = Done (c', unread) -> only_signals_since c c'.
Proof.
  intros Hread.
  apply (socketRead_preserves (only_signals_since c)) with (now := now) (sock := sock)
                                                           (c := c) (unread := unread).
  - intros n x p l Hx. eapply only_signals_trans; [exact Hx | apply only_signals_packet].
  - intros x Hx. eapply only_signals_trans; [exact Hx | apply only_signals_emit; reflexivity].
  - intros x Hx. eapply only_signals_trans; [exact Hx | apply only_signals_emit; reflexivity].
  - intros a x Hx. eapply only_signals_trans; [exact Hx |].
    unfold only_signals_since. repeat split.
    exists []. split; [symmetry; apply app_nil_r | reflexivity].
  - intros st x Hx. eapply only_signals_trans; [exact Hx |].
    unfold only_signals_since. repeat split.
    exists []. split; [symmetry; apply app_nil_r | reflexivity].
  - exact Hread.
  - apply only_signals_refl.
Qed.

End ReceiveEffects.

(** ** The phases of a connection *)

Section Phases.
Context {E : Externals}.



Lemma timerExpires_log (state : SocketState) (c : Conn) :
  status (timerExpires state c) = status c
  /\ _receivedQueue (timerExpires state c) = _receivedQueue c
  /\ exists events,
       out (timerExpires state c) = out c ++ events
       /\ (events = [] \/ events = [SockDisconnectFromHost] \/ events = [SockConnectToHost])
       /\ (status c <> WaitingTcp -> events = []).
Proof.
  unfold timerExpires, onTcpTimeoutTimer. simpl.
  destruct (status c) eqn:Hst; simpl.
  - destruct (_ <? _); destruct state; simpl; (split; [exact Hst |]);
      (split; [reflexivity |]);
      first [ exists []; split; [symmetry; apply app_nil_r | split; [auto | congruence]]
            | exists [SockDisconnectFromHost]; split; [reflexivity | split; [auto | congruence]]
            | exists [SockConnectToHost]; split; [reflexivity | split; [auto | congruence]] ].
  - split; [exact Hst |]. split; [reflexivity |].
    exists []. split; [symmetry; apply app_nil_r | auto].
  - split; [exact Hst |]. split; [reflexivity |].
    exists []. split; [symmetry; apply app_nil_r | auto].
Qed.

Lemma onSocketDisconnected_log (c : Conn) :
  status (onSocketDisconnected c) = status c
  /\ _receivedQueue (onSocketDisconnected c) = _receivedQueue c
  /\ exists events,
       out (onSocketDisconnected c) = out c ++ events
       /\ (events = [] \/ events = [EmitDisconnected] \/ events = [SockConnectToHost])
       /\ (status c = FinishedWork -> events = []).
Proof.
  unfold onSocketDisconnected.
  destruct (_tcpTimeout c <? 0); simpl; destruct (status c) eqn:Hst; simpl;
    (split; [exact Hst |]); (split; [reflexivity |]);
    first [ exists []; split; [symmetry; apply app_nil_r | split; [auto | congruence]]
          | exists [EmitDisconnected]; split; [reflexivity | split; [auto | congruence]]
          | exists [SockConnectToHost]; split; [reflexivity | split; [auto | congruence]] ].
Qed.

Lemma occurrences_app (kind : Output -> bool) (a b : list Output) :
  occurrences kind (a ++ b) = (occurrences kind a + occurrences kind b)%nat.
Proof. unfold occurrences. rewrite filter_app, length_app. reflexivity. Qed.








End Phases.

(** ** After the connection is closed *)

Section Closed.
Context {E : Externals}.

Lemma quiet_refl (c : Conn) : status c = FinishedWork -> quiet_since c c.
Proof.
  intros H. split; [exact H |]. split; [reflexivity |].
  exists []. split; [symmetry; apply app_nil_r | reflexivity].
Qed.

Lemma quiet_add (c x x' : Conn) (events : list Output) :
  quiet_since c x ->
  status x' = FinishedWork -> _receivedQueue x' = _receivedQueue x ->
  out x' = out x ++ events -> occurrences is_traffic events = 0%nat ->
  quiet_since c x'.
Proof.
  intros (_ & Hq & seen & Ho & Hn) Hst Hq' Ho' Hn'.
  split; [exact Hst |]. split; [congruence |].
  exists (seen ++ events). split.
  - rewrite Ho', Ho. symmetry. apply app_assoc.
  - rewrite occurrences_app, Hn, Hn'. reflexivity.
Qed.

(** X3.  [FinishedWork] is quiet: once a connection is closed, nothing that
    happens to it (a call of the owner, a signal of the socket, the timer,
    bytes arriving) writes to the socket, queues a buffer or raises
    [connected], [disconnected] or [receivedData], and it stays closed.
    Sending, [socketPacket], [socketError] and a second
    [disconnectFromServer] leave it exactly as it is. *)
Theorem closed_connection_is_quiet (c : Conn) :
  status c = FinishedWork ->
  (forall c', step c c' -> quiet_since c c')
  /\ (forall random buffer, sendData random c buffer = Some c)
  /\ (forall now packet length, socketPacket now c packet length = c)
  /\ socketError c = c
  /\ disconnectFromServer c = c.
Proof.
  intros Hst. split; [| repeat split].
  - intros c' Hstep.
    destruct Hstep as [secret dc c | now random c c' Hc | state c Hrun | c
                      | random buffer c c' Hs | now sock c c' unread Hr | c | c].
    + apply (quiet_add c c _ [SockSubscribeRead; SockConnectToHost]);
        [apply quiet_refl, Hst | exact Hst | reflexivity
        | simpl; rewrite <- app_assoc; reflexivity | reflexivity].
    + unfold onSocketConnected in Hc. rewrite Hst in Hc. injection Hc as <-.
      apply quiet_refl, Hst.
    + destruct (timerExpires_log state c) as (H1 & H2 & events & Ho & _ & Hnone).
      rewrite (Hnone ltac:(congruence)) in Ho.
      apply (quiet_add c c _ []); [apply quiet_refl, Hst | congruence | exact H2
                                  | exact Ho | reflexivity].
    + destruct (onSocketDisconnected_log c) as (H1 & H2 & events & Ho & _ & Hnone).
      rewrite (Hnone Hst) in Ho.
      apply (quiet_add c c _ []); [apply quiet_refl, Hst | congruence | exact H2
                                  | exact Ho | reflexivity].
    + unfold sendData in Hs. rewrite Hst in Hs. injection Hs as <-.
      apply quiet_refl, Hst.
    + apply (socketRead_preserves (quiet_since c))
        with (now := now) (sock := sock) (c := c) (unread := unread);
        try assumption; try (apply quiet_refl, Hst).
      * intros n x p l Hx. unfold socketPacket. destruct Hx as (Hx & Hrest).
        rewrite Hx. split; assumption.
      * intros x Hx. apply (quiet_add c x _ [EmitError kErrorCodeOther]);
          try reflexivity; [exact Hx | apply Hx].
      * intros x Hx. apply (quiet_add c x _ [EmitReceivedSome]);
          try reflexivity; [exact Hx | apply Hx].
      * intros a x Hx. apply (quiet_add c x _ []); try reflexivity;
          [exact Hx | apply Hx | simpl; symmetry; apply app_nil_r].
      * intros st x Hx. apply (quiet_add c x _ []); try reflexivity;
          [exact Hx | apply Hx | simpl; symmetry; apply app_nil_r].
    + unfold disconnectFromServer. rewrite Hst. apply quiet_refl, Hst.
    + unfold socketError. rewrite Hst. apply quiet_refl, Hst.
  - intros random buffer. unfold sendData. rewrite Hst. reflexivity.
  - intros now packet length. unfold socketPacket. rewrite Hst. reflexivity.
  - unfold socketError. rewrite Hst. reflexivity.
  - unfold disconnectFromServer. rewrite Hst. reflexivity.
Qed.

End Closed.

(** ** The retry cycle *)

Section RetryCycle.
Context {E : Externals}.

(** X4.  One turn of the retry cycle.  When the timer expires in
    [WaitingTcp] on a socket that is connected or connecting, the connection
    asks the socket to disconnect; the socket's [disconnected] signal is
    then not passed on to the owner but answered by a new connect; and when
    the socket reports connected again the timer is started with the
    doubled timeout (kept once it has reached the ceiling) and the probe is
    sent again as a single write, encrypted with the cipher state the
    connection already has: the handshake bytes are not written a second
    time. *)
Theorem retry_cycle_reconnects (state : SocketState) (now : Z) (random : list bytes)
    (c : Conn) :
  status c = WaitingTcp ->
  0 < _tcpTimeout c ->
  packetNum (obf c) <> 0 ->
  3 <= zlen (preparePQFake (tcpNonce c)) ->
  In state [ConnectedState; ConnectingState; HostLookupState] ->
  let backoff :=
    if _tcpTimeout c <? kMaxReceiveTimeout then _tcpTimeout c * 2 else _tcpTimeout c in
  let c1 := timerExpires state c in
  let c2 := onSocketDisconnected c1 in
  out c1 = out c ++ [SockDisconnectFromHost]
  /\ _tcpTimeout c1 = - backoff
  /\ out c2 = out c ++ [SockDisconnectFromHost; SockConnectToHost]
  /\ status c2 = WaitingTcp /\ _tcpTimeout c2 = backoff /\ tcpTimeoutTimer c2 = None
  /\ exists c3,
       onSocketConnected now random c2 = Some c3
       /\ status c3 = WaitingTcp
       /\ tcpTimeoutTimer c3 = Some backoff /\ _tcpTimeout c3 = backoff
       /\ _pingTime c3 = now
       /\ out c3 = out c2
                   ++ [SockWrite (fst (aesCtrEncrypt
                                         (outgoing_frame (preparePQFake (tcpNonce c)))
                                         (_sendKey (obf c)) (_sendState (obf c))))].
Proof.
  intros Hst Hpos Hnum Hlen Hstate backoff c1 c2.
  assert (Hb : 0 < backoff).
  { subst backoff. destruct (_ <? _); lia. }
  assert (Hc1 : c1 = emit SockDisconnectFromHost
                       (with_tcpTimeout (- backoff) (with_timer None c))).
  { subst c1 backoff. unfold timerExpires, onTcpTimeoutTimer. simpl. rewrite Hst.
    destruct (_tcpTimeout c <? kMaxReceiveTimeout); simpl in Hstate;
      destruct Hstate as [<- | [<- | [<- | []]]]; reflexivity. }
  assert (Hc2 : c2 = emit SockConnectToHost (with_tcpTimeout backoff c1)).
  { subst c2. unfold onSocketDisconnected. rewrite Hc1. simpl. rewrite Hst.
    replace (- backoff <? 0) with true by (symmetry; apply Z.ltb_lt; lia).
    simpl. rewrite Z.opp_involutive. reflexivity. }
  clearbody c1 c2. subst c2 c1.
  split; [reflexivity |].
  split; [reflexivity |].
  split; [simpl; rewrite <- app_assoc; reflexivity |].
  split; [exact Hst |].
  split; [reflexivity |].
  split; [reflexivity |].
  unfold onSocketConnected. simpl. rewrite Hst.
  replace (backoff <? 0) with false by (symmetry; apply Z.ltb_ge; lia).
  unfold sendData. simpl. rewrite Hst. simpl.
  replace (zlen (preparePQFake (tcpNonce c)) <? 3) with false
    by (symmetry; apply Z.ltb_ge; lia).
  unfold tcpSend. simpl.
  replace (packetNum (obf c) =? 0) with false by (symmetry; apply Z.eqb_neq; exact Hnum).
  destruct (aesCtrEncrypt _ _ _) as [sent st] eqn:Henc.
  eexists. split; [reflexivity |]. simpl.
  repeat split; try reflexivity. exact Hst.
Qed.

End RetryCycle.

(** ** What is sent is what is received *)

Lemma le32_of_bytes (x : Z) :
  0 <= x < 4294967296 ->
  le32 (Z.land x 255) (Z.land (Z.shiftr x 8) 255) (Z.land (Z.shiftr x 16) 255)
       (Z.land (Z.shiftr x 24) 255) = x.
Proof.
  intros Hx. unfold le32. rewrite !land_255. rewrite !shiftr_div by lia.
  change (2 ^ 8) with 256. change (2 ^ 16) with 65536. change (2 ^ 24) with 16777216.
  pose proof (Z.mod_pos_bound x 256 ltac:(lia)).
  pose proof (Z.mod_pos_bound (x / 256) 256 ltac:(lia)).
  pose proof (Z.mod_pos_bound (x / 65536) 256 ltac:(lia)).
  pose proof (Z.mod_pos_bound (x / 16777216) 256 ltac:(lia)).
  rewrite (lor_shiftl_low _ (x / 65536 mod 256) 8) by (change (2 ^ 8) with 256; lia).
  rewrite (lor_shiftl_low _ (x / 256 mod 256) 8) by (change (2 ^ 8) with 256; lia).
  rewrite (lor_shiftl_low _ (x mod 256) 8) by (change (2 ^ 8) with 256; lia).
  change (2 ^ 8) with 256.
  pose proof (Z.div_mod x 256 ltac:(lia)).
  pose proof (Z.div_mod (x / 256) 256 ltac:(lia)).
  pose proof (Z.div_mod (x / 65536) 256 ltac:(lia)).
  assert (x / 256 / 256 = x / 65536) by (rewrite Z.div_div by lia; reflexivity).
  assert (x / 65536 / 256 = x / 16777216) by (rewrite Z.div_div by lia; reflexivity).
  assert (0 <= x / 16777216 < 256)
    by (split; [apply Z.div_pos; lia | apply Z.div_lt_upper_bound; lia]).
  rewrite (Z.mod_small (x / 16777216) 256) by lia. lia.
Qed.

Lemma i32_u32 (w : Z) : is_int32 w -> i32 (u32 w) = w.
Proof.
  unfold is_int32, i32, u32. intros H.
  change (2 ^ 31) with 2147483648. change (2 ^ 32) with 4294967296.
  destruct (Z_lt_le_dec w 0).
  - replace (w mod 4294967296) with (w + 4294967296)
      by (apply Z.mod_unique with (-1); lia).
    replace (w + 4294967296 + 2147483648) with (w + 2147483648 + 1 * 4294967296) by lia.
    rewrite Z_mod_plus_full. rewrite Z.mod_small by lia. lia.
  - rewrite (Z.mod_small w) by lia. rewrite Z.mod_small by lia. lia.
Qed.

Lemma byte_at_app_r (pre l : bytes) (k : Z) :
  0 <= k -> byte_at (pre ++ l) (zlen pre + k) = byte_at l k.
Proof.
  intros Hk. unfold byte_at, zlen.
  replace (Z.to_nat (Z.of_nat (length pre) + k)) with (length pre + Z.to_nat k)%nat by lia.
  rewrite app_nth2 by lia. f_equal. lia.
Qed.

Lemma words_at_bytes_of_words (pre : bytes) (ws : mtpBuffer) (rest : bytes) :
  Forall is_int32 ws ->
  words_at (pre ++ bytes_of_words ws ++ rest) (zlen pre) (length ws) = ws.
Proof.
  revert pre. induction ws as [| w ws IH]; intros pre Hws; [reflexivity |].
  inversion Hws as [| ? ? Hw Hrest]; subst.
  change (bytes_of_words (w :: ws)) with (bytes_of_prime w ++ bytes_of_words ws).
  cbn [length words_at]. f_equal.
  - unfold load_i32, load_u32.
    replace (zlen pre) with (zlen pre + 0) at 1 by lia.
    rewrite !byte_at_app_r by lia.
    unfold bytes_of_prime, bytes_of_u32. cbn [app].
    change (byte_at (?a :: ?b :: ?c :: ?d :: ?l) 0) with a.
    unfold byte_at. change (Z.to_nat 0) with 0%nat. change (Z.to_nat 1) with 1%nat.
    change (Z.to_nat 2) with 2%nat. change (Z.to_nat 3) with 3%nat. cbn [nth].
    rewrite le32_of_bytes by (unfold u32; apply Z.mod_pos_bound; reflexivity).
    apply i32_u32, Hw.
  - replace (pre ++ (bytes_of_prime w ++ bytes_of_words ws) ++ rest)
      with ((pre ++ bytes_of_prime w) ++ bytes_of_words ws ++ rest)
      by (rewrite <- !app_assoc; reflexivity).
    replace (zlen pre + 4) with (zlen (pre ++ bytes_of_prime w))
      by (unfold zlen; rewrite length_app; unfold bytes_of_prime, bytes_of_u32;
          cbn [length]; lia).
    apply IH, Hrest.
Qed.

Lemma bytes_of_words_length (ws : mtpBuffer) : zlen (bytes_of_words ws) = 4 * zlen ws.
Proof.
  unfold zlen. induction ws as [| w ws IH]; [reflexivity |].
  change (bytes_of_words (w :: ws)) with (bytes_of_prime w ++ bytes_of_words ws).
  rewrite length_app. unfold bytes_of_prime, bytes_of_u32. cbn [length]. lia.
Qed.

Lemma bytes_of_words_all_bytes (ws : mtpBuffer) : all_bytes (bytes_of_words ws).
Proof.
  unfold all_bytes. induction ws as [| w ws IH]; [constructor |].
  change (bytes_of_words (w :: ws)) with (bytes_of_prime w ++ bytes_of_words ws).
  apply Forall_app. split; [| exact IH].
  unfold bytes_of_prime, bytes_of_u32.
  repeat constructor; unfold is_byte; rewrite land_255; apply Z.mod_pos_bound; lia.
Qed.

Lemma encode_header_all_bytes (size : Z) : all_bytes (encode_header size).
Proof.
  rewrite encode_header_eq. unfold all_bytes.
  destruct (size <? 0x7f); repeat constructor; unfold is_byte, u8;
    try (apply Z.mod_pos_bound; reflexivity); lia.
Qed.

Lemma Forall_part_firstn {A} (P : A -> Prop) (n : nat) (l : list A) :
  Forall P l -> Forall P (firstn n l).
Proof.
  intros H. rewrite <- (firstn_skipn n l) in H. apply Forall_app in H. apply H.
Qed.

Lemma Forall_part_skipn {A} (P : A -> Prop) (n : nat) (l : list A) :
  Forall P l -> Forall P (skipn n l).
Proof.
  intros H. rewrite <- (firstn_skipn n l) in H. apply Forall_app in H. apply H.
Qed.

Section RoundTrip.
Context {E : Externals}.

(** X5.  The frame [tcpSend] builds for a buffer is read back by the
    receive side as the payload that was sent: [tcpPacketSize] finds the
    frame's own length in its header, and [handleResponse] returns words
    [2, n - 1) of the buffer.  (The buffer has at least one payload word,
    its words are [int32] values and the frame is within
    [MTPPacketSizeMax].) *)
Theorem sent_frame_is_received (buffer : mtpBuffer) :
  5 <= MTPPacketSizeMax < 2147483648 ->
  Forall is_int32 buffer ->
  4 <= zlen buffer ->
  zlen buffer - 3 < 16777216 ->
  zlen (outgoing_frame buffer) <= MTPPacketSizeMax ->
  let frame := outgoing_frame buffer in
  let payload := firstn (Z.to_nat (zlen buffer - 3)) (skipn 2 buffer) in
  zlen payload = zlen buffer - 3
  /\ tcpPacketSize frame = zlen frame
  /\ handleResponse frame (zlen frame) = payload.
Proof.
  intros HMax Hint Hmin Hbig Hfit frame payload.
  fold frame in Hfit.
  assert (Hframe : frame = encode_header (zlen buffer - 3) ++ bytes_of_words payload)
    by (apply outgoing_frame_eq; lia).
  set (size := zlen buffer - 3) in *.
  assert (Hpl : zlen payload = size).
  { subst payload. unfold zlen. rewrite firstn_length_le.
    - subst size. unfold zlen in *. lia.
    - rewrite length_skipn. unfold zlen in *. lia. }
  assert (Hpint : Forall is_int32 payload).
  { subst payload. apply Forall_part_firstn, Forall_part_skipn, Hint. }
  assert (Hall : all_bytes frame).
  { rewrite Hframe. apply Forall_app. split;
      [apply encode_header_all_bytes | apply bytes_of_words_all_bytes]. }
  pose proof (decode_header_encode size (bytes_of_words payload) ltac:(lia)) as Hdec.
  rewrite <- Hframe in Hdec.
  assert (Hhdr : zlen (encode_header size) = 1 \/ zlen (encode_header size) = 4).
  { rewrite encode_header_eq. destruct (size <? 0x7f); [left | right]; reflexivity. }
  assert (Hlen : zlen frame = zlen (encode_header size) + size * 4).
  { rewrite Hframe. unfold zlen at 1. rewrite length_app.
    pose proof (bytes_of_words_length payload) as Hb. unfold zlen in *. lia. }
  assert (Hfirst : (schar (byte_at frame 0) >? 0) = true).
  { rewrite Hframe, encode_header_eq.
    destruct (Z.ltb_spec size 0x7f).
    - rewrite u8_small by lia. change (byte_at ([size] ++ _) 0) with size.
      unfold schar. destruct (Z.ltb_spec size 128); apply Z.gtb_lt; lia.
    - reflexivity. }
  split; [exact Hpl |].
  pose proof (tcpPacketSize_declared frame Hall) as Hdecl.
  rewrite Hdec, Hfirst in Hdecl.
  split; [lia |].
  destruct (read_header_cases frame (zlen frame) Hall ltac:(lia))
    as (sz & h & Hdh & Hrh & _ & _).
  rewrite Hdec in Hdh. injection Hdh as <- <-.
  unfold handleResponse, parseResponse.
  replace (zlen frame <? 5) with false by (symmetry; apply Z.ltb_ge; lia).
  replace (zlen frame >? MTPPacketSizeMax) with false
    by (destruct (Z.gtb_spec (zlen frame) MTPPacketSizeMax); [lia | reflexivity]).
  simpl. rewrite Hrh. rewrite (i32_small (size * 4)) by lia.
  replace (size * 4 =? zlen frame - zlen (encode_header size)) with true
    by (symmetry; apply Z.eqb_eq; lia).
  simpl. rewrite (u32_small (zlen frame - _)) by lia.
  replace (zlen frame - (zlen frame - zlen (encode_header size)))
    with (zlen (encode_header size)) by lia.
  assert (Hwords : words_at frame (zlen (encode_header size)) (length payload) = payload).
  { rewrite Hframe. rewrite <- (app_nil_r (bytes_of_words payload)) at 1.
    apply words_at_bytes_of_words, Hpint. }
  assert (Hn : Z.to_nat size = length payload) by (unfold zlen in Hpl; lia).
  destruct (Z.eqb_spec size 1) as [H1 | Hne]; simpl.
  - rewrite H1 in Hn. destruct payload as [| w [| w' rest]]; try discriminate.
    simpl in Hwords. injection Hwords as Hw. rewrite Hw. reflexivity.
  - rewrite Hn. exact Hwords.
Qed.

End RoundTrip.

(** ** Slices of the receive buffer *)

Lemma to_nat_zlen {A} (l : list A) : Z.to_nat (zlen l) = length l.
Proof. unfold zlen. lia. Qed.

Lemma zlen_app {A} (a b : list A) : zlen (a ++ b) = zlen a + zlen b.
Proof. unfold zlen. rewrite length_app. lia. Qed.

Lemma zlen_nonneg {A} (l : list A) : 0 <= zlen l.
Proof. unfold zlen. lia. Qed.

Lemma sub_app_exact (x y : bytes) : sub (x ++ y) 0 (zlen x) = x.
Proof.
  unfold sub. change (Z.to_nat 0) with 0%nat. rewrite skipn_0, to_nat_zlen.
  rewrite firstn_app, Nat.sub_diag, firstn_0, app_nil_r. apply firstn_all.
Qed.

Lemma byte_at_app_l (x y : bytes) (i : Z) :
  0 <= i < zlen x -> byte_at (x ++ y) i = byte_at x i.
Proof.
  intros Hi. unfold byte_at. apply app_nth1. unfold zlen in Hi. lia.
Qed.

(** [tcpPacketSize] reads the first four bytes only *)
Lemma tcpPacketSize_app (x y : bytes) :
  4 <= zlen x -> tcpPacketSize (x ++ y) = tcpPacketSize x.
Proof.
  intros Hx. unfold tcpPacketSize. rewrite !byte_at_app_l by lia. reflexivity.
Qed.

Lemma blit_at (buf prefix data : bytes) :
  firstn (length prefix) buf = prefix ->
  blit buf (zlen prefix) data
  = prefix ++ data ++ skipn (length prefix + length data) buf.
Proof.
  intros H. unfold blit. rewrite to_nat_zlen, H. reflexivity.
Qed.

Lemma blit_length (buf : bytes) (pos : Z) (data : bytes) :
  0 <= pos -> pos + zlen data <= zlen buf -> zlen (blit buf pos data) = zlen buf.
Proof.
  intros Hpos Hfit. unfold blit, zlen in *.
  rewrite !length_app, length_firstn, length_skipn. lia.
Qed.

Section PacketAndBuffer.
Context {E : Externals}.

Lemma socketPacket_with_asm (now : Z) (a : Assembler) (c : Conn) (p : bytes) (l : Z) :
  socketPacket now (with_asm a c) p l = with_asm a (socketPacket now c p l).
Proof.
  unfold socketPacket, packetDecoded. simpl.
  destruct (Status_eqb (status c) FinishedWork); [reflexivity |].
  destruct (zlen (handleResponse p l) =? 1); [reflexivity |].
  destruct (status c); try reflexivity. simpl.
  destruct (readPQFakeReply (handleResponse p l)) as [v |]; [| reflexivity].
  destruct (v =? tcpNonce c); reflexivity.
Qed.

End PacketAndBuffer.

(** ** A frame that arrives in pieces *)

Lemma firstn_prefix_length (k : nat) (l prefix : bytes) :
  firstn k l = prefix -> k = length prefix -> (length prefix <= length l)%nat.
Proof.
  intros H Hk. rewrite <- H at 1. rewrite length_firstn. subst k.
  rewrite <- H at 1. rewrite length_firstn. lia.
Qed.

Lemma resize_length (buf : bytes) (words : Z) :
  zlen buf <= 4 * words -> zlen (resize buf words) = 4 * words.
Proof.
  intros H. unfold resize, zlen in *. cbv zeta.
  rewrite length_app, length_firstn, repeat_length. lia.
Qed.

Lemma resize_keeps (buf : bytes) (words : Z) (k : nat) :
  (k <= length buf)%nat -> zlen buf <= 4 * words ->
  firstn k (resize buf words) = firstn k buf.
Proof.
  intros Hk H. unfold resize. cbv zeta.
  rewrite (firstn_all2 (n := Z.to_nat (4 * words)) buf) by (unfold zlen in H; lia).
  rewrite firstn_app. replace (k - length buf)%nat with 0%nat by lia.
  rewrite firstn_0, app_nil_r. reflexivity.
Qed.

Lemma shiftr2_words (x : Z) : 0 <= x -> x < 4 * (Z.shiftr x 2 + 1).
Proof.
  intros Hx. rewrite Z.shiftr_div_pow2 by lia. change (2 ^ 2) with 4.
  pose proof (Z.div_mod x 4 ltac:(lia)). pose proof (Z.mod_pos_bound x 4 ltac:(lia)). lia.
Qed.

Section Pieces.
Context {E : Externals}.
Variable f : bytes.
Hypothesis HS : 4 <= MTPShortBufferSize * 4 < 4294967296.
Hypothesis HMax : 5 <= MTPPacketSizeMax < 2147483648.
Hypothesis Hf : frame_ok f.

(** what lines 54-67 make of a buffer that is collecting [f] *)
Lemma make_room_collecting (prefix : bytes) (a : Assembler) :
  collecting f prefix a ->
  collecting f prefix (make_room a)
  /\ packetLeft (make_room a) = packetLeft a
  /\ 1 <= toRead a
  /\ zlen prefix + toRead a <= zlen (active (make_room a))
  /\ (4 <= zlen prefix -> toRead a = zlen f - zlen prefix)
  /\ (zlen prefix < 4 -> readingToShort (make_room a) = true).
Proof.
  destruct Hf as [Hfb Hfs].
  destruct a as [pr pl rts cp sb lb].
  intros (Hpr & Hcp & Hsb & Hfirst & Hlt & Hphase). simpl in *. subst pr cp.
  pose proof (zlen_nonneg prefix) as Hp0.
  destruct Hphase as [(Hpl & Hsmall & Hrts) | (Hpl & Hbig)]; subst pl.
  - subst rts. unfold make_room, toRead. simpl.
    rewrite (u32_small (MTPShortBufferSize * 4 - zlen prefix)) by lia.
    replace (zlen prefix + (MTPShortBufferSize * 4 - zlen prefix) >? MTPShortBufferSize * 4)
      with false
      by (destruct (Z.gtb_spec (zlen prefix + (MTPShortBufferSize * 4 - zlen prefix))
                               (MTPShortBufferSize * 4)); [lia | reflexivity]).
    split; [unfold collecting; simpl; repeat split; auto |].
    repeat split; unfold active; simpl; auto; lia.
  - assert (Hne : (zlen f - zlen prefix =? 0) = false) by (apply Z.eqb_neq; lia).
    assert (HtoRead : toRead (mkAsm (zlen prefix) (zlen f - zlen prefix) rts (zlen prefix) sb lb)
                      = zlen f - zlen prefix).
    { unfold toRead. simpl. rewrite Hne. reflexivity. }
    unfold make_room. rewrite HtoRead. simpl.
    replace (zlen prefix + (zlen f - zlen prefix)) with (zlen f) by lia.
    rewrite (u32_small (zlen f)) by lia.
    pose proof (shiftr2_words (zlen f) ltac:(lia)) as Hwords.
    set (words := Z.shiftr (zlen f) 2 + 1) in *.
    unfold active in Hfirst. simpl in Hfirst.
    destruct rts.
    + destruct (Z.gtb_spec (zlen f) (MTPShortBufferSize * 4)) as [Hpromote | Hfits].
      * assert (Hsub : sub sb 0 (zlen prefix) = prefix).
        { unfold sub. change (Z.to_nat 0) with 0%nat. rewrite skipn_0, to_nat_zlen.
          exact Hfirst. }
        rewrite Hsub.
        assert (Hlb : blit (resize lb words) 0 prefix
                      = prefix ++ skipn (length prefix) (resize lb words))
          by (unfold blit; reflexivity).
        rewrite Hlb.
        destruct (Z_le_gt_dec (zlen lb) (4 * words)) as [Hle | Hgt].
        -- pose proof (resize_length lb words Hle) as Hrl.
           split; [unfold collecting, active; simpl; repeat split; auto; try lia;
                   rewrite firstn_app, Nat.sub_diag, firstn_0, app_nil_r;
                   apply firstn_all |].
           repeat split; simpl; auto; try lia.
           unfold active. simpl. rewrite zlen_app. unfold zlen in *.
           rewrite length_skipn. lia.
        -- assert (Hrl : zlen (resize lb words) = 4 * words).
           { unfold resize, zlen in *. cbv zeta.
             rewrite length_app, length_firstn, repeat_length. lia. }
           split; [unfold collecting, active; simpl; repeat split; auto; try lia;
                   rewrite firstn_app, Nat.sub_diag, firstn_0, app_nil_r;
                   apply firstn_all |].
           repeat split; simpl; auto; try lia.
           unfold active. simpl. rewrite zlen_app. unfold zlen in *.
           rewrite length_skipn. lia.
      * split; [unfold collecting, active; simpl; repeat split; auto; lia |].
        repeat split; unfold active; simpl; auto; try lia.
    + pose proof (firstn_prefix_length _ _ _ Hfirst eq_refl) as Hplen.
      destruct (Z.ltb_spec (zlen lb) (zlen f)) as [Hgrow | Hfits].
      * assert (Hle : zlen lb <= 4 * words) by lia.
        pose proof (resize_length lb words Hle) as Hrl.
        split; [unfold collecting, active; simpl; repeat split; auto; try lia;
                rewrite resize_keeps by assumption; exact Hfirst |].
        repeat split; unfold active; simpl; auto; try lia.
      * split; [unfold collecting, active; simpl; repeat split; auto; lia |].
        repeat split; unfold active; simpl; auto; try lia.
Qed.

(** the buffer after the read: the bytes collected so far are at its start *)
Lemma store_collecting (prefix p : bytes) (a : Assembler) :
  collecting f prefix a ->
  zlen prefix + zlen p <= zlen (active a) ->
  zlen (prefix ++ p) <= zlen f ->
  let a2 := store a (zlen p) p in
  packetRead a2 = zlen (prefix ++ p)
  /\ currentPos a2 = zlen (prefix ++ p)
  /\ packetLeft a2 = packetLeft a
  /\ readingToShort a2 = readingToShort a
  /\ zlen (shortBuffer a2) = MTPShortBufferSize * 4
  /\ active a2 = (prefix ++ p) ++ skipn (length prefix + length p) (active a).
Proof.
  destruct Hf as [Hfb Hfs].
  destruct a as [pr pl rts cp sb lb].
  intros (Hpr & Hcp & Hsb & Hfirst & Hlt & Hphase) Hcap Hle. simpl in *. subst pr cp.
  pose proof (zlen_nonneg prefix). pose proof (zlen_nonneg p).
  rewrite zlen_app in *.
  unfold store, active in *. simpl in *.
  destruct rts; simpl; rewrite (u32_small (zlen prefix + zlen p)) by lia;
    rewrite (blit_at _ prefix p Hfirst), <- app_assoc; repeat split; auto.
  rewrite !zlen_app. unfold zlen in *. rewrite length_skipn. lia.
Qed.

(** [turn] on a connection that is receiving, once the guards of the read
    are passed *)
Lemma turn_stored (now : Z) (c : Conn) (k : nat) (st st1 : CTRState) (a : Assembler)
    (chunk p : bytes) :
  aesCtrEncrypt chunk (_receiveKey (obf c)) st = (p, st1) ->
  0 < zlen chunk ->
  currentPos (make_room a) + zlen chunk <= zlen (active (make_room a)) ->
  turn now false (listening c k st a) chunk
  = let a2 := store (make_room a) (zlen chunk) p in
    let c2 := listening c k st1 a2 in
    if negb (packetLeft a2 =? 0) then
      let left := u32 (packetLeft a2 - zlen chunk) in
      if left =? 0 then
        let packet := sub (active a2) (currentPos a2 - packetRead a2) (packetRead a2) in
        let c3 := socketPacket now c2 packet (packetRead a2) in
        TurnAgain (with_asm (to_short_empty 0 0 (asm c3)) c3)
      else
        TurnAgain (emit EmitReceivedSome
                     (with_asm (with_counters (packetRead a2) left a2) c2))
    else
      match scan (Z.to_nat (packetRead a2)) now c2 false with
      | None => TurnUnfinished
      | Some (ScanError c3, _) => TurnReturn c3
      | Some (ScanWait c3, move) | Some (ScanNext c3, move) =>
          TurnAgain (if move then with_asm (after_scan (asm c3)) c3 else c3)
      end.
Proof.
  intros Hcipher Hpos Hfit. unfold turn.
  change (asm (listening c k st a)) with a.
  replace (zlen chunk >? 0) with true by (symmetry; apply Z.gtb_lt; lia).
  replace (currentPos (make_room a) + zlen chunk >? zlen (active (make_room a)))
    with false
    by (destruct (Z.gtb_spec (currentPos (make_room a) + zlen chunk)
                             (zlen (active (make_room a)))); [lia | reflexivity]).
  change (aesCtrEncrypt chunk
            (_receiveKey (obf (with_asm (make_room a) (listening c k st a))))
            (_receiveState (obf (with_asm (make_room a) (listening c k st a)))))
    with (aesCtrEncrypt chunk (_receiveKey (obf c)) st).
  rewrite Hcipher. reflexivity.
Qed.

Lemma scan_short (fuel : nat) (now : Z) (c : Conn) (move : bool) :
  packetRead (asm c) < 4 -> scan fuel now c move = Some (ScanNext c, move).
Proof.
  intros H.
  assert (Hc : (packetRead (asm c) >=? 4) = false)
    by (destruct (Z.geb_spec (packetRead (asm c)) 4); [lia | reflexivity]).
  destruct fuel; cbn [scan]; rewrite Hc; reflexivity.
Qed.

Lemma scan_first (fuel : nat) (now : Z) (c : Conn) (move : bool) :
  4 <= packetRead (asm c) ->
  scan (S fuel) now c move
  = match scan_step now c with
    | ScanNext c => scan fuel now c true
    | r => Some (r, move)
    end.
Proof.
  intros H. cbn [scan].
  replace (packetRead (asm c) >=? 4) with true by (symmetry; apply Z.geb_le; lia).
  reflexivity.
Qed.

(** one read while [f] is being collected and does not complete it *)
Lemma turn_piece_more (now : Z) (c : Conn) (k : nat) (st st1 : CTRState)
    (a : Assembler) (prefix chunk p more : bytes) :
  collecting f prefix a ->
  aesCtrEncrypt chunk (_receiveKey (obf c)) st = (p, st1) ->
  length p = length chunk -> 0 < zlen chunk -> zlen chunk <= toRead a ->
  f = prefix ++ p ++ more -> more <> [] ->
  exists (k' : nat) (a' : Assembler),
    turn now false (listening c k st a) chunk = TurnAgain (listening c k' st1 a')
    /\ collecting f (prefix ++ p) a'.
Proof.
  intros Hcol Hcipher Hlen Hpos Hfit Hsplit Hmore.
  destruct (make_room_collecting prefix a Hcol) as (Hcol1 & Hpl1 & HtoRead & Hcap & Hbody & Hhdr).
  assert (Hzp : zlen p = zlen chunk) by (unfold zlen; rewrite Hlen; reflexivity).
  assert (Hzm : 0 < zlen more) by (destruct more; [congruence | unfold zlen; simpl; lia]).
  assert (Hn : zlen f = zlen (prefix ++ p) + zlen more)
    by (rewrite Hsplit at 1; rewrite !zlen_app; lia).
  pose proof (zlen_nonneg prefix) as Hp0.
  assert (Hcp1 : currentPos (make_room a) = zlen prefix) by (apply Hcol1).
  rewrite (turn_stored now c k st st1 a chunk p Hcipher Hpos) by lia.
  rewrite <- Hzp in *.
  destruct (store_collecting prefix p (make_room a) Hcol1 ltac:(lia) ltac:(lia))
    as (Hpr2 & Hcp2 & Hpl2 & Hrts2 & Hsb2 & Hact2).
  cbv zeta in *.
  set (a2 := store (make_room a) (zlen p) p) in *.
  assert (Hfirst2 : firstn (length (prefix ++ p)) (active a2) = prefix ++ p).
  { rewrite Hact2, firstn_app, Nat.sub_diag, firstn_0, app_nil_r. apply firstn_all. }
  destruct Hf as [Hfb Hfs].
  rewrite Hpl2, Hpl1, Hpr2.
  destruct Hcol as (_ & _ & _ & _ & Hlt & [(Hpl & Hsmall & Hrts) | (Hpl & Hbig)]).
  - rewrite Hpl. change (negb (0 =? 0)) with false. cbv iota.
    destruct (Z_lt_ge_dec (zlen (prefix ++ p)) 4) as [Hshort | Hlong].
    + rewrite scan_short by (change (asm (listening c k st1 a2)) with a2; lia).
      exists k, a2. split; [reflexivity |].
      unfold collecting. repeat split; auto; try lia.
      left. repeat split; auto; try lia. rewrite Hrts2. apply Hhdr. lia.
    + assert (Hfuel : exists fuel, Z.to_nat (zlen (prefix ++ p)) = S fuel)
        by (exists (Z.to_nat (zlen (prefix ++ p)) - 1)%nat; lia).
      destruct Hfuel as [fuel Hfuel]. rewrite Hfuel.
      rewrite scan_first by (change (asm (listening c k st1 a2)) with a2; lia).
      unfold scan_step. change (asm (listening c k st1 a2)) with a2.
      rewrite Hcp2, Hpr2, Z.sub_diag. change (Z.to_nat 0) with 0%nat. rewrite skipn_0.
      rewrite Hact2, (tcpPacketSize_app (prefix ++ p)) by lia.
      assert (Hsize : tcpPacketSize (prefix ++ p) = zlen f).
      { rewrite <- Hfs. rewrite Hsplit. rewrite app_assoc.
        symmetry. apply tcpPacketSize_app. lia. }
      rewrite Hsize.
      replace (zlen f <? 5) with false by (symmetry; apply Z.ltb_ge; lia).
      replace (zlen f >? MTPPacketSizeMax) with false
        by (destruct (Z.gtb_spec (zlen f) MTPPacketSizeMax); [lia | reflexivity]).
      cbn [orb].
      replace (zlen (prefix ++ p) >=? zlen f) with false
        by (destruct (Z.geb_spec (zlen (prefix ++ p)) (zlen f)); [lia | reflexivity]).
      rewrite (u32_small (zlen f - zlen (prefix ++ p))) by lia.
      exists (S k), (with_counters (zlen (prefix ++ p)) (zlen f - zlen (prefix ++ p)) a2).
      split; [reflexivity |].
      unfold collecting. unfold active in *. simpl. repeat split; auto; try lia.
  - rewrite Hpl.
    replace (negb (zlen f - zlen prefix =? 0)) with true
      by (symmetry; apply negb_true_iff, Z.eqb_neq; lia).
    cbv iota.
    rewrite zlen_app in Hn.
    rewrite (u32_small (zlen f - zlen prefix - zlen p)) by lia.
    replace (zlen f - zlen prefix - zlen p =? 0) with false
      by (symmetry; apply Z.eqb_neq; lia).
    exists (S k), (with_counters (zlen (prefix ++ p)) (zlen f - zlen prefix - zlen p) a2).
    split; [reflexivity |].
    unfold collecting. unfold active in *. simpl. rewrite zlen_app in *.
    repeat split; auto; try lia.
Qed.

(** the read that completes [f]: the frame goes to [socketPacket] and the
    buffer is empty again *)
Lemma turn_piece_last (now : Z) (c : Conn) (k : nat) (st st1 : CTRState)
    (a : Assembler) (prefix chunk p : bytes) :
  collecting f prefix a ->
  aesCtrEncrypt chunk (_receiveKey (obf c)) st = (p, st1) ->
  length p = length chunk -> 0 < zlen chunk -> zlen chunk <= toRead a ->
  f = prefix ++ p ->
  exists a' : Assembler,
    turn now false (listening c k st a) chunk
    = TurnAgain (with_asm a' (socketPacket now (listening c k st1 a) f (zlen f)))
    /\ assembler_idle a'.
Proof.
  intros Hcol Hcipher Hlen Hpos Hfit Hsplit.
  destruct (make_room_collecting prefix a Hcol) as (Hcol1 & Hpl1 & HtoRead & Hcap & Hbody & Hhdr).
  assert (Hzp : zlen p = zlen chunk) by (unfold zlen; rewrite Hlen; reflexivity).
  assert (Hn : zlen f = zlen (prefix ++ p)) by (rewrite Hsplit at 1; reflexivity).
  pose proof (zlen_nonneg prefix) as Hp0.
  assert (Hcp1 : currentPos (make_room a) = zlen prefix) by (apply Hcol1).
  rewrite (turn_stored now c k st st1 a chunk p Hcipher Hpos) by lia.
  rewrite <- Hzp in *.
  destruct (store_collecting prefix p (make_room a) Hcol1 ltac:(lia) ltac:(lia))
    as (Hpr2 & Hcp2 & Hpl2 & Hrts2 & Hsb2 & Hact2).
  cbv zeta in *.
  set (a2 := store (make_room a) (zlen p) p) in *.
  destruct Hf as [Hfb Hfs].
  rewrite <- Hsplit in Hpr2, Hcp2, Hact2.
  rewrite Hpl2, Hpl1, Hpr2, Hcp2, Z.sub_diag, Hact2, sub_app_exact.
  assert (Hpacket : socketPacket now (listening c k st1 a2) f (zlen f)
                    = with_asm a2 (socketPacket now (listening c k st1 a) f (zlen f))).
  { unfold listening. rewrite !socketPacket_with_asm. reflexivity. }
  destruct Hcol as (_ & _ & _ & _ & Hlt & [(Hpl & Hsmall & Hrts) | (Hpl & Hbig)]).
  - rewrite Hpl. change (negb (0 =? 0)) with false. cbv iota.
    assert (Hfuel : exists fuel, Z.to_nat (zlen f) = S fuel)
      by (exists (Z.to_nat (zlen f) - 1)%nat; lia).
    destruct Hfuel as [fuel Hfuel]. rewrite Hfuel.
    rewrite scan_first by (change (asm (listening c k st1 a2)) with a2; lia).
    unfold scan_step. change (asm (listening c k st1 a2)) with a2.
    rewrite Hcp2, Hpr2, Z.sub_diag. change (Z.to_nat 0) with 0%nat. rewrite skipn_0.
    rewrite Hact2, (tcpPacketSize_app f) by lia.
    rewrite Hfs.
    replace (zlen f <? 5) with false by (symmetry; apply Z.ltb_ge; lia).
    replace (zlen f >? MTPPacketSizeMax) with false
      by (destruct (Z.gtb_spec (zlen f) MTPPacketSizeMax); [lia | reflexivity]).
    cbn [orb].
    replace (zlen f >=? zlen f) with true by (symmetry; apply Z.geb_le; lia).
    rewrite sub_app_exact, Hpacket, Z.sub_diag. change (u32 0) with 0.
    rewrite scan_short by (simpl; lia).
    exists (to_short_empty 0 0 a2). split.
    + unfold after_scan. simpl. reflexivity.
    + unfold assembler_idle. simpl. repeat split; auto.
  - rewrite Hpl.
    replace (negb (zlen f - zlen prefix =? 0)) with true
      by (symmetry; apply negb_true_iff, Z.eqb_neq; lia).
    cbv iota.
    rewrite zlen_app in Hn.
    replace (zlen f - zlen prefix - zlen p) with 0 by lia.
    change (u32 0 =? 0) with true. cbv iota.
    rewrite Hpacket.
    exists (to_short_empty 0 0 a2). split.
    + simpl. reflexivity.
    + unfold assembler_idle. simpl. repeat split; auto.
Qed.

Lemma listening_self (c : Conn) :
  listening c 0 (_receiveState (obf c)) (asm c) = c.
Proof. destruct c as [a o s n t p tm q l]. destruct o. reflexivity. Qed.

Lemma delivered_from (now : Z) (c : Conn) (k : nat) (st : CTRState) (a a' : Assembler) :
  with_asm a' (socketPacket now (listening c k st a) f (zlen f))
  = socketPacket now (listening c k st a') f (zlen f).
Proof. unfold listening. rewrite !socketPacket_with_asm. reflexivity. Qed.

Lemma nonempty_length {A} (l : list A) : l <> [] -> (1 <= length l)%nat.
Proof. destruct l; [congruence | simpl; lia]. Qed.

(** one call of [socketRead] while [f] is being collected: the bytes in the
    socket are all taken, in one read or more *)
Lemma loop_pieces (now : Z) (c : Conn) (fuel : nat) :
  cipher_is_stream ->
  forall (k : nat) (st : CTRState) (a : Assembler) (prefix av more : bytes),
  collecting f prefix a -> av <> [] -> (length av <= fuel)%nat ->
  f = prefix ++ fst (aesCtrEncrypt av (_receiveKey (obf c)) st) ++ more ->
  exists (k' : nat) (a' : Assembler),
    socketRead_loop fuel now false (listening c k st a) av
    = Done (match more with
            | [] => socketPacket now
                      (listening c k' (snd (aesCtrEncrypt av (_receiveKey (obf c)) st)) a')
                      f (zlen f)
            | _ => listening c k' (snd (aesCtrEncrypt av (_receiveKey (obf c)) st)) a'
            end, [])
    /\ match more with
       | [] => assembler_idle a'
       | _ => collecting f (prefix ++ fst (aesCtrEncrypt av (_receiveKey (obf c)) st)) a'
       end.
Proof.
  intros Hstream. induction fuel as [| fuel IH]; intros k st a prefix av more Hcol Hav Hfuel Hsplit.
  - apply nonempty_length in Hav. lia.
  - cbn [socketRead_loop]. change (asm (listening c k st a)) with a.
    destruct (make_room_collecting prefix a Hcol) as (_ & _ & HtoRead & _).
    set (n := Z.to_nat (toRead a)).
    pose proof (nonempty_length av Hav) as Hav1.
    assert (Hchunk : 0 < zlen (firstn n av) <= toRead a).
    { unfold zlen. rewrite length_firstn. subst n. lia. }
    destruct (Hstream (firstn n av) (skipn n av) (_receiveKey (obf c)) st) as [Hsp Hl1].
    rewrite firstn_skipn in Hsp.
    set (key := _receiveKey (obf c)) in *.
    set (p1 := fst (aesCtrEncrypt (firstn n av) key st)) in *.
    set (s1 := snd (aesCtrEncrypt (firstn n av) key st)) in *.
    assert (Hc1 : aesCtrEncrypt (firstn n av) key st = (p1, s1))
      by (subst p1 s1; apply surjective_pairing).
    destruct (skipn n av) as [| b rest] eqn:Hrest.
    + assert (Hall : firstn n av = av).
      { rewrite <- (firstn_skipn n av) at 2. rewrite Hrest, app_nil_r. reflexivity. }
      subst p1 s1. rewrite Hall in Hc1, Hl1, Hchunk |- *.
      destruct more as [| m more].
      * rewrite app_nil_r in Hsplit.
        destruct (turn_piece_last now c k st _ a prefix av _ Hcol Hc1 Hl1
                    ltac:(lia) ltac:(lia) Hsplit) as (a' & Hturn & Hidle).
        rewrite Hturn, delivered_from. exists k, a'. split; [reflexivity | exact Hidle].
      * destruct (turn_piece_more now c k st _ a prefix av _ (m :: more) Hcol Hc1 Hl1
                    ltac:(lia) ltac:(lia) Hsplit ltac:(congruence))
          as (k' & a' & Hturn & Hcol').
        rewrite Hturn. exists k', a'. split; [reflexivity | exact Hcol'].
    + destruct (Hstream (b :: rest) [] key s1) as [_ Hl2].
      set (p2 := fst (aesCtrEncrypt (b :: rest) key s1)) in *.
      rewrite Hsp in Hsplit |- *. cbn [fst snd] in Hsplit |- *.
      assert (Hp2 : p2 <> []) by (intros Hnil; rewrite Hnil in Hl2; simpl in Hl2; lia).
      assert (Hsplit1 : f = prefix ++ p1 ++ (p2 ++ more))
        by (rewrite Hsplit, <- !app_assoc; reflexivity).
      destruct (turn_piece_more now c k st s1 a prefix (firstn n av) p1 (p2 ++ more)
                  Hcol Hc1 Hl1 ltac:(lia) ltac:(lia) Hsplit1
                  ltac:(destruct p2; [congruence | discriminate]))
        as (k1 & a1 & Hturn & Hcol1).
      rewrite Hturn.
      assert (Hlen : (length (b :: rest) <= fuel)%nat).
      { rewrite <- Hrest, length_skipn. unfold zlen in Hchunk.
        rewrite length_firstn in Hchunk. lia. }
      assert (Hsplit2 : f = (prefix ++ p1) ++ fst (aesCtrEncrypt (b :: rest) key s1) ++ more)
        by (rewrite Hsplit, <- !app_assoc; reflexivity).
      destruct (IH k1 s1 a1 (prefix ++ p1) (b :: rest) more Hcol1 ltac:(discriminate)
                  Hlen Hsplit2) as (k' & a' & Hloop & Hend).
      fold key in Hloop, Hend. fold p2 in Hend.
      rewrite Hloop. exists k', a'. split; [reflexivity |].
      rewrite app_assoc. exact Hend.
Qed.

Lemma receive_pieces (now : Z) (c : Conn) :
  cipher_is_stream ->
  forall (chunks : list bytes) (k : nat) (st : CTRState) (a : Assembler) (prefix : bytes),
  collecting f prefix a -> chunks <> [] -> Forall (fun chunk => chunk <> []) chunks ->
  f = prefix ++ fst (aesCtrEncrypt (concat chunks) (_receiveKey (obf c)) st) ->
  exists (k' : nat) (a' : Assembler),
    receive now (listening c k st a) [] chunks
    = Done (socketPacket now
              (listening c k' (snd (aesCtrEncrypt (concat chunks) (_receiveKey (obf c)) st)) a')
              f (zlen f))
    /\ assembler_idle a'.
Proof.
  intros Hstream. induction chunks as [| chunk later IH];
    intros k st a prefix Hcol Hne Hall Hsplit; [congruence |].
  apply Forall_cons_iff in Hall as [Hchunk Hlater].
  cbn [receive]. change ([] ++ chunk) with chunk.
  unfold socketRead. cbn [sock_state sock_available sock_read_fails].
  set (key := _receiveKey (obf c)) in *.
  destruct later as [| next later].
  - cbn [concat] in *. rewrite app_nil_r in *.
    destruct (loop_pieces now c (S (length chunk)) Hstream k st a prefix chunk []
                Hcol Hchunk ltac:(lia) ltac:(rewrite app_nil_r; exact Hsplit))
      as (k' & a' & Hloop & Hidle).
    fold key in Hloop. rewrite Hloop. cbn [receive]. exists k', a'. split; [reflexivity | exact Hidle].
  - change (concat (chunk :: next :: later)) with (chunk ++ concat (next :: later)) in *.
    destruct (Hstream chunk (concat (next :: later)) key st) as [Hsp Hl1].
    destruct (Hstream (concat (next :: later)) [] key (snd (aesCtrEncrypt chunk key st)))
      as [_ Hl2].
    set (p1 := fst (aesCtrEncrypt chunk key st)) in *.
    set (s1 := snd (aesCtrEncrypt chunk key st)) in *.
    set (p2 := fst (aesCtrEncrypt (concat (next :: later)) key s1)) in *.
    rewrite Hsp in Hsplit |- *. cbn [fst snd] in Hsplit |- *.
    assert (Hp2 : p2 <> []).
    { intros Hnil. rewrite Hnil in Hl2.
      pose proof (proj1 (proj1 (Forall_cons_iff _ _ _) Hlater)) as Hnext.
      apply nonempty_length in Hnext. cbn [concat] in Hl2. rewrite length_app in Hl2.
      simpl in Hl2. lia. }
    destruct (loop_pieces now c (S (length chunk)) Hstream k st a prefix chunk p2
                Hcol Hchunk ltac:(lia) Hsplit)
      as (k1 & a1 & Hloop & Hcol1).
    fold key p1 s1 in Hloop, Hcol1.
    assert (Ep2 : fst (aesCtrEncrypt (concat (next :: later)) key s1) = p2) by reflexivity.
    clearbody p2. destruct p2 as [| b q]; [congruence |].
    rewrite Hloop.
    destruct (IH k1 s1 a1 (prefix ++ p1) Hcol1 ltac:(discriminate) Hlater)
      as (k' & a' & Hrec & Hidle).
    { rewrite Ep2, <- app_assoc. exact Hsplit. }
    rewrite Hrec. exists k', a'. split; [reflexivity | exact Hidle].
Qed.

(** X6.  A frame that arrives in pieces.  With a cipher that works like a
    keystream, a frame whose header declares its own length, received on an
    idle buffer in any number of non-empty pieces (one [readyRead] for
    each), is handed to [socketPacket] exactly once, complete and
    deciphered, after the last piece; before that the connection raises
    [receivedSome] only, and afterwards the receive buffer is idle again and
    the receive cipher state is the one after the whole frame. *)
Theorem frame_in_pieces (now : Z) (c : Conn) (chunks : list bytes) :
  cipher_is_stream ->
  assembler_idle (asm c) ->
  chunks <> [] -> Forall (fun chunk => chunk <> []) chunks ->
  fst (aesCtrEncrypt (concat chunks) (_receiveKey (obf c)) (_receiveState (obf c))) = f ->
  exists (k : nat) (a' : Assembler),
    receive now c [] chunks
    = Done (socketPacket now
              (listening c k
                 (snd (aesCtrEncrypt (concat chunks) (_receiveKey (obf c))
                         (_receiveState (obf c)))) a')
              f (zlen f))
    /\ assembler_idle a'.
Proof.
  intros Hstream (Hread & Hleft & Hshort & Hpos & Hsb & Hlong) Hne Hall Hplain.
  assert (Hcol : collecting f [] (asm c)).
  { destruct Hf as [Hfb _]. unfold collecting. change (zlen (@nil Z)) with 0.
    split; [exact Hread |]. split; [exact Hpos |]. split; [exact Hsb |].
    split; [reflexivity |]. split; [unfold zlen in *; simpl; lia |].
    left. repeat split; auto; unfold zlen; simpl; lia. }
  destruct (receive_pieces now c Hstream chunks 0%nat (_receiveState (obf c)) (asm c) []
              Hcol Hne Hall ltac:(rewrite Hplain; reflexivity))
    as (k & a' & Hrec & Hidle).
  rewrite listening_self in Hrec.
  exists k, a'. split; assumption.
Qed.

End Pieces.

(** ** The reads stay inside the receive buffer *)

Lemma resize_length_any (buf : bytes) (words : Z) :
  0 <= words -> zlen (resize buf words) = 4 * words.
Proof.
  intros H. unfold resize, zlen. cbv zeta.
  rewrite length_app, length_firstn, repeat_length. lia.
Qed.

Lemma blit0_length_ge (buf src : bytes) : zlen buf <= zlen (blit buf 0 src).
Proof.
  unfold blit, zlen. change (Z.to_nat 0) with 0%nat.
  rewrite firstn_0, !length_app, length_skipn. simpl. lia.
Qed.

Lemma sub_length_le (p : bytes) (off n : Z) : 0 <= n -> zlen (sub p off n) <= n.
Proof.
  intros H. unfold sub, zlen. rewrite length_firstn. lia.
Qed.

Section BufferSafety.
Context {E : Externals}.
Hypothesis HS : 4 <= MTPShortBufferSize * 4 < 4294967296.
Hypothesis HMax : 5 <= MTPPacketSizeMax < 4294967296.
Hypothesis Hkeep : cipher_keeps_length.

Lemma socketPacket_asm (now : Z) (c : Conn) (p : bytes) (l : Z) :
  asm (socketPacket now c p l) = asm c.
Proof.
  unfold socketPacket, packetDecoded.
  destruct (Status_eqb (status c) FinishedWork); [reflexivity |].
  destruct (zlen (handleResponse p l) =? 1); [reflexivity |].
  destruct (status c); try reflexivity. simpl.
  destruct (readPQFakeReply (handleResponse p l)) as [v |]; [| reflexivity].
  destruct (v =? tcpNonce c); reflexivity.
Qed.

(** lines 54-67 on a safe buffer: the buffer the read goes to has room for
    [toRead] bytes at [currentPos] *)
Lemma make_room_safe (a : Assembler) :
  buffer_safe a ->
  buffer_safe (make_room a)
  /\ packetRead (make_room a) = packetRead a
  /\ packetLeft (make_room a) = packetLeft a
  /\ 0 <= toRead a
  /\ currentPos (make_room a) + toRead a <= zlen (active (make_room a))
  /\ (packetLeft a = 0 -> packetRead a + toRead a <= Z.max (MTPShortBufferSize * 4) 7)
  /\ (packetLeft a <> 0 -> toRead a = packetLeft a).
Proof.
  destruct a as [pr pl rts cp sb lb].
  intros (Hsb & Hpr & Hpl & Hsum & Hhdr & Hmode). simpl in *.
  set (a := mkAsm pr pl rts cp sb lb).
  assert (HtoRead : toRead a
                    = if pl =? 0 then if rts then MTPShortBufferSize * 4 - pr else 4 else pl).
  { unfold toRead, a. simpl. destruct (Z.eqb_spec pl 0) as [H0 | H0]; [| reflexivity].
    destruct rts; [| reflexivity]. apply u32_small. specialize (Hhdr H0). lia. }
  assert (Hbound : 0 <= toRead a /\ pr + toRead a < 4294967296
                   /\ (pl = 0 -> pr + toRead a <= Z.max (MTPShortBufferSize * 4) 7)
                   /\ (pl <> 0 -> toRead a = pl)).
  { rewrite HtoRead. destruct (Z.eqb_spec pl 0) as [H0 | H0].
    - specialize (Hhdr H0). destruct rts; repeat split; try lia.
    - repeat split; try lia. }
  destruct Hbound as (HT0 & HT32 & HThdr & HTbody).
  unfold make_room. fold a. change (packetRead a) with pr. change (currentPos a) with cp.
  change (readingToShort a) with rts. change (longBuffer a) with lb.
  change (shortBuffer a) with sb. change (packetLeft a) with pl.
  rewrite (u32_small (pr + toRead a)) by lia.
  assert (Hsum0 : 0 <= pr + toRead a) by lia.
  pose proof (shiftr2_words (pr + toRead a) Hsum0) as Hwords.
  assert (Hw0 : 0 <= Z.shiftr (pr + toRead a) 2 + 1)
    by (pose proof (Z.shiftr_nonneg (pr + toRead a) 2); lia).
  set (words := Z.shiftr (pr + toRead a) 2 + 1) in *.
  destruct rts.
  - destruct (Z.gtb_spec (cp + toRead a) (MTPShortBufferSize * 4)) as [Hpromote | Hfits].
    + pose proof (blit0_length_ge (resize lb words) (sub sb 0 pr)) as Hlen.
      rewrite (resize_length_any lb words Hw0) in Hlen.
      unfold buffer_safe, active. simpl. repeat split; auto; lia.
    + unfold buffer_safe, active. simpl. repeat split; auto; lia.
  - destruct (Z.ltb_spec (zlen lb) (pr + toRead a)) as [Hgrow | Hfits].
    + pose proof (resize_length_any lb words Hw0) as Hlen.
      unfold buffer_safe, active. simpl. repeat split; auto; lia.
    + unfold buffer_safe, active. simpl. repeat split; auto; lia.
Qed.

(** the [while] loop of lines 90-106 leaves the buffers alone and only
    lowers [packetRead]; [bound] is [packetRead] on entry *)
Lemma scan_safe (fuel : nat) (now : Z) (bound : Z) :
  bound < 4294967296 ->
  forall (c : Conn) (move : bool) (r : Scan) (m : bool),
  scan fuel now c move = Some (r, m) ->
  0 <= packetRead (asm c) <= bound ->
  (if move then packetRead (asm c) + 5 <= bound else packetRead (asm c) = bound) ->
  packetLeft (asm c) = 0 ->
  match r with
  | ScanError c' => raised_error c'
  | ScanNext c' =>
      readingToShort (asm c') = readingToShort (asm c)
      /\ currentPos (asm c') = currentPos (asm c)
      /\ shortBuffer (asm c') = shortBuffer (asm c)
      /\ longBuffer (asm c') = longBuffer (asm c)
      /\ packetLeft (asm c') = 0 /\ 0 <= packetRead (asm c') < 4
      /\ (if m then packetRead (asm c') + 5 <= bound else packetRead (asm c') = bound)
  | ScanWait c' =>
      readingToShort (asm c') = readingToShort (asm c)
      /\ currentPos (asm c') = currentPos (asm c)
      /\ shortBuffer (asm c') = shortBuffer (asm c)
      /\ longBuffer (asm c') = longBuffer (asm c)
      /\ 0 < packetLeft (asm c') /\ 0 <= packetRead (asm c')
      /\ packetRead (asm c') + packetLeft (asm c') <= MTPPacketSizeMax
      /\ (if m then packetRead (asm c') + 5 <= bound else packetRead (asm c') = bound)
  end.
Proof.
  intros Hbound. induction fuel as [| fuel IH]; intros c move r m Hscan Hpr Hmove Hleft.
  - cbn [scan] in Hscan.
    destruct (Z.geb_spec (packetRead (asm c)) 4) as [Hge | Hlt]; [discriminate |].
    injection Hscan as <- <-. repeat split; auto; lia.
  - cbn [scan] in Hscan.
    destruct (Z.geb_spec (packetRead (asm c)) 4) as [Hge | Hlt];
      [| injection Hscan as <- <-; repeat split; auto; lia].
    unfold scan_step in Hscan.
    set (size := tcpPacketSize
                   (skipn (Z.to_nat (currentPos (asm c) - packetRead (asm c)))
                          (active (asm c)))) in *.
    destruct (Z.ltb_spec size 5) as [Hsmall | Hsize5];
      [injection Hscan as <- <-; exists (out c); reflexivity |].
    destruct (Z.gtb_spec size MTPPacketSizeMax) as [Hbig | HsizeMax];
      [injection Hscan as <- <-; exists (out c); reflexivity |].
    cbn [orb] in Hscan.
    destruct (Z.geb_spec (packetRead (asm c)) size) as [Hwhole | Hpart].
    + apply IH in Hscan.
      * cbn [asm with_asm with_counters readingToShort currentPos shortBuffer longBuffer]
          in Hscan.
        rewrite socketPacket_asm in Hscan. exact Hscan.
      * cbn [asm with_asm with_counters packetRead].
        rewrite u32_small by lia. lia.
      * cbn [asm with_asm with_counters packetRead].
        rewrite u32_small by lia. destruct move; lia.
      * reflexivity.
    + injection Hscan as <- <-.
      cbn [asm with_asm emit with_counters packetRead packetLeft readingToShort currentPos
           shortBuffer longBuffer].
      rewrite u32_small by lia. repeat split; auto; lia.
Qed.

Lemma turn_safe (now : Z) (fails : bool) (c : Conn) (chunk : bytes) :
  buffer_safe (asm c) -> zlen chunk <= toRead (asm c) ->
  match turn now fails c chunk with
  | TurnAgain c' => buffer_safe (asm c')
  | TurnReturn c' => buffer_safe (asm c') \/ raised_error c'
  | TurnOverrun => False
  | TurnUnfinished => True
  end.
Proof.
  intros Hsafe Hchunk.
  destruct (make_room_safe (asm c) Hsafe)
    as (Hsafe1 & Hpr1 & Hpl1 & HT0 & Hroom & HThdr & HTbody).
  destruct Hsafe as (_ & Hpr0 & Hpl0 & Hsum0 & Hhdr0 & _).
  unfold turn.
  destruct fails; [right; exists (out c); reflexivity |].
  destruct (Z.gtb_spec (zlen chunk) 0) as [Hpos | Hzero]; [| left; exact Hsafe1].
  destruct (Z.gtb_spec (currentPos (make_room (asm c)) + zlen chunk)
                       (zlen (active (make_room (asm c))))) as [Hover | Hfit]; [lia |].
  change (obf (with_asm (make_room (asm c)) c)) with (obf c).
  pose proof (Hkeep chunk (_receiveKey (obf c)) (_receiveState (obf c))) as Hlen.
  destruct (aesCtrEncrypt chunk (_receiveKey (obf c)) (_receiveState (obf c)))
    as [plain st].
  cbn [fst] in Hlen.
  assert (Hzp : zlen plain = zlen chunk) by (unfold zlen; rewrite Hlen; reflexivity).
  remember (make_room (asm c)) as a1 eqn:Ea1. clear Ea1.
  destruct a1 as [pr pl rts cp sb lb].
  destruct Hsafe1 as (Hsb & Hpr & Hpl & Hsum & Hhdr & Hmode).
  cbn [packetRead packetLeft readingToShort currentPos shortBuffer longBuffer] in *.
  subst pr pl.
  set (pr := packetRead (asm c)) in *. set (pl := packetLeft (asm c)) in *.
  set (n := zlen chunk) in *.
  assert (Hstore :
    store (mkAsm pr pl rts cp sb lb) n plain
    = mkAsm (pr + n) pl rts (cp + n)
        (if rts then blit sb cp plain else sb)
        (if rts then lb else blit lb cp plain)).
  { unfold store. cbn [packetRead packetLeft readingToShort currentPos shortBuffer longBuffer].
    assert (Hu : u32 (pr + n) = pr + n).
    { apply u32_small. destruct (Z.eq_dec pl 0) as [H0 | H0].
      - specialize (HThdr H0). lia.
      - specialize (HTbody H0). lia. }
    rewrite Hu. destruct rts; reflexivity. }
  rewrite Hstore.
  set (sb2 := if rts then blit sb cp plain else sb) in *.
  set (lb2 := if rts then lb else blit lb cp plain) in *.
  assert (Hsb2 : zlen sb2 = MTPShortBufferSize * 4).
  { subst sb2. destruct rts; [| exact Hsb].
    unfold active in Hfit. cbn [readingToShort shortBuffer] in Hfit.
    rewrite blit_length; [exact Hsb | lia | lia]. }
  clearbody sb2 lb2.
  cbn [asm with_asm packetLeft packetRead currentPos].
  destruct (Z.eqb_spec pl 0) as [Hhead | Hbody]; cbn [negb].
  - (* no frame awaited: the scan *)
    match goal with
    | |- context [scan ?fl now ?x false] =>
        destruct (scan fl now x false) as [[r m] |] eqn:Hscan; [| exact I];
        apply (scan_safe fl now (pr + n)) in Hscan
    end.
    + cbn [asm with_asm readingToShort currentPos shortBuffer longBuffer] in Hscan.
      specialize (HThdr Hhead).
      assert (Hmove : forall a3 : Assembler,
                 readingToShort a3 = rts -> currentPos a3 = cp + n ->
                 shortBuffer a3 = sb2 -> 0 <= packetRead a3 ->
                 0 <= packetLeft a3 -> packetRead a3 + packetLeft a3 <= MTPPacketSizeMax ->
                 (packetLeft a3 = 0 -> packetRead a3 < 4) ->
                 packetRead a3 + 5 <= pr + n ->
                 buffer_safe (after_scan a3)).
      { intros [pr3 pl3 rts3 cp3 sb3 lb3]. simpl. intros -> -> -> H1 H2 H3 H4 H5.
        unfold after_scan. simpl.
        destruct (Z.eqb_spec pr3 0) as [Hz | Hnz];
          [unfold buffer_safe; simpl; repeat split; auto; lia |].
        destruct rts; simpl.
        - unfold active in Hfit. simpl in Hfit.
          unfold buffer_safe; simpl; repeat split; auto; lia.
        - destruct (Z.ltb_spec pr3 (MTPShortBufferSize * 4)) as [Hshort | Hlong];
            [| lia].
          unfold buffer_safe; simpl; repeat split; auto; try lia.
          rewrite blit_length; [exact Hsb2 | lia |].
          match goal with
          | |- 0 + zlen (sub ?l ?o ?k) <= _ => pose proof (sub_length_le l o k H1)
          end.
          lia. }
      assert (Hstay : forall a3 : Assembler,
                 readingToShort a3 = rts -> currentPos a3 = cp + n ->
                 shortBuffer a3 = sb2 -> 0 <= packetRead a3 ->
                 0 <= packetLeft a3 -> packetRead a3 + packetLeft a3 <= MTPPacketSizeMax ->
                 (packetLeft a3 = 0 -> packetRead a3 < 4) ->
                 packetRead a3 = pr + n ->
                 buffer_safe a3).
      { intros [pr3 pl3 rts3 cp3 sb3 lb3]. simpl. intros -> -> -> H1 H2 H3 H4 H5.
        unfold active in Hfit. simpl in Hfit.
        unfold buffer_safe; simpl; repeat split; auto; try lia.
        destruct rts; lia. }
      destruct r as [c3 | c3 | c3].
      * right. exact Hscan.
      * destruct Hscan as (R1 & R2 & R3 & R4 & R5 & R6 & R7 & R8).
        destruct m; cbn [asm with_asm];
          [apply Hmove | apply Hstay]; auto; lia.
      * destruct Hscan as (R1 & R2 & R3 & R4 & R5 & R6 & R7).
        destruct m; cbn [asm with_asm];
          [apply Hmove | apply Hstay]; auto; lia.
    + specialize (HThdr Hhead). lia.
    + cbn [asm with_asm packetRead]. lia.
    + cbn [asm with_asm packetRead]. reflexivity.
    + cbn [asm with_asm packetLeft]. exact Hhead.
  - (* the rest of a frame is awaited *)
    specialize (HTbody Hbody).
    rewrite (u32_small (pl - n)) by lia.
    unfold active in Hfit. cbn [readingToShort shortBuffer longBuffer] in Hfit.
    destruct (Z.eqb_spec (pl - n) 0) as [Hdone | Hmore].
    + cbn [asm with_asm]. rewrite socketPacket_asm. cbn [asm with_asm].
      unfold buffer_safe, to_short_empty. simpl. repeat split; auto; lia.
    + cbn [asm with_asm emit].
      unfold buffer_safe, with_counters. simpl. repeat split; auto; try lia.
      destruct rts; lia.
Qed.

Lemma socketRead_loop_safe (fuel : nat) (now : Z) (fails : bool) (c : Conn)
    (available : bytes) :
  buffer_safe (asm c) ->
  match socketRead_loop fuel now fails c available with
  | Done (c', _) => buffer_safe (asm c') \/ raised_error c'
  | Overrun => False
  | Unfinished => True
  end.
Proof.
  revert c available. induction fuel as [| fuel IH]; intros c available Hsafe; [exact I |].
  cbn [socketRead_loop].
  destruct (make_room_safe (asm c) Hsafe) as (_ & _ & _ & HT0 & _).
  assert (Hchunk : zlen (firstn (Z.to_nat (toRead (asm c))) available) <= toRead (asm c))
    by (unfold zlen; rewrite length_firstn; lia).
  pose proof (turn_safe now fails c _ Hsafe Hchunk) as Hturn.
  destruct (turn now fails c (firstn (Z.to_nat (toRead (asm c))) available))
    as [c1 | c1 | |]; [| exact Hturn | exact Hturn | exact I].
  destruct (skipn (Z.to_nat (toRead (asm c))) available) as [| b rest];
    [left; exact Hturn | apply IH; exact Hturn].
Qed.

(** X7.  The reads stay inside the receive buffer.  With a cipher that
    works in place, [socketRead] on a connection whose receive buffer is in
    a safe state returns, never having stored past the end of the buffer it
    read into, and leaves the buffer in a safe state again unless the last
    thing it did was to raise [error(kErrorCodeOther)]. *)
Theorem socketRead_stays_in_buffer (now : Z) (sock : Socket) (c : Conn) :
  buffer_safe (asm c) ->
  exists (c' : Conn) (unread : bytes),
    socketRead now sock c = Done (c', unread)
    /\ (buffer_safe (asm c') \/ raised_error c').
Proof.
  intros Hsafe.
  pose proof (socketRead_finishes now sock c) as Hfin.
  unfold socketRead in *.
  destruct (sock_state sock);
    try (eexists; eexists; split; [reflexivity | right; exists (out c); reflexivity]).
  pose proof (socketRead_loop_safe (S (length (sock_available sock))) now
                (sock_read_fails sock) c (sock_available sock) Hsafe) as Hloop.
  destruct (socketRead_loop (S (length (sock_available sock))) now (sock_read_fails sock)
              c (sock_available sock)) as [[c' unread] | |];
    [| contradiction | congruence].
  exists c', unread. split; [reflexivity | exact Hloop].
Qed.








End BufferSafety.

(** ** The model on concrete inputs *)

#[local] Existing Instance sample.

(** C5.  Two frames, of 3 and of 5 words, arrive on one connection in
    [UsingTcp].  Read in one piece, or one byte at a time, they are queued
    as they were sent.  Read as 15 bytes and then 19, the second frame is
    queued as three words that start with the first payload word of the
    first frame: line 58 copies the unconsumed bytes to the long buffer from
    the start of [shortBuffer] and not from [currentPos - packetRead], where
    they are. *)
Theorem receive_split_read_corrupts_frame :
  let c := with_status UsingTcp (newConnection (E := sample) 42) in
  let first := 3 :: bytes_of_words [1; 2; 3] in
  let second := 5 :: bytes_of_words [11; 12; 13; 14; 15] in
  let wire := fst (sample_cipher (first ++ second)
                     (_receiveKey (obf c)) (_receiveState (obf c))) in
  (exists c1, receive (E := sample) 0 c [] [wire] = Done c1
              /\ _receivedQueue c1 = [[1; 2; 3]; [11; 12; 13; 14; 15]])
  /\ (exists c2, receive (E := sample) 0 c [] (map (fun b => [b]) wire) = Done c2
                 /\ _receivedQueue c2 = [[1; 2; 3]; [11; 12; 13; 14; 15]])
  /\ (exists c3, receive (E := sample) 0 c [] [firstn 15 wire; skipn 15 wire] = Done c3
                 /\ _receivedQueue c3 = [[1; 2; 3]; [1; 12; 13]]
                 /\ packetLeft (asm c3) = 49).
Proof.
  cbv zeta. split; [| split].
  - eexists. split; [vm_compute; reflexivity | reflexivity].
  - eexists. split; [vm_compute; reflexivity | reflexivity].
  - eexists. split; [vm_compute; reflexivity | split; reflexivity].
Qed.

(** the same run, step by step: after the first read the two unconsumed
    bytes (the header 5 and the low byte of the word 11) are at offset 13 of
    [shortBuffer]; the next turn moves to [longBuffer] and finds there the
    first two bytes of the first frame *)
Lemma split_read_promotion_copies_buffer_start :
  let c := with_status UsingTcp (newConnection (E := sample) 42) in
  let first := 3 :: bytes_of_words [1; 2; 3] in
  let second := 5 :: bytes_of_words [11; 12; 13; 14; 15] in
  let wire := fst (sample_cipher (first ++ second)
                     (_receiveKey (obf c)) (_receiveState (obf c))) in
  exists c1,
    socketRead (E := sample) 0 (mkSock ConnectedState (firstn 15 wire) false) c
    = Done (c1, [])
    /\ _receivedQueue c1 = [[1; 2; 3]]
    /\ readingToShort (asm c1) = true
    /\ packetRead (asm c1) = 2 /\ packetLeft (asm c1) = 0 /\ currentPos (asm c1) = 15
    /\ sub (shortBuffer (asm c1)) 13 2 = [5; 11]
    /\ toRead (E := sample) (asm c1) = 258
    /\ readingToShort (make_room (E := sample) (asm c1)) = false
    /\ sub (longBuffer (make_room (E := sample) (asm c1))) 0 2 = [3; 1].
Proof.
  cbv zeta. eexists. split; [vm_compute; reflexivity |].
  repeat split.
Qed.


Lemma one_word_frame_is_error_witness :
  let c := with_status UsingTcp (newConnection (E := sample) 42) in
  socketPacket (E := sample) 0 c [1; 7; 0; 0; 0] 5 = emit (EmitError 7) c.
Proof.
  intros c.
  destruct (one_word_frame_is_error (E := sample) 0 c [1; 7; 0; 0; 0] 5)
    as (_ & _ & _ & _ & H & _).
  - simpl; lia.
  - repeat constructor; unfold is_byte; lia.
  - reflexivity.
  - left; reflexivity.
  - apply H. discriminate.
Defined.

(** C1 fails as stated: a probe response that does not parse raises
    [error], and any response, parsed or not, stops the retry timer. *)
Lemma probe_failure_counterexample :
  let c := with_timer (Some 2000) (newConnection (E := sample) 42) in
  let unparsable := 2 :: bytes_of_words [7; 8] in
  let mismatch := 2 :: bytes_of_words [85337187; 43] in
  status c = WaitingTcp
  /\ readPQFakeReply (Externals := sample) (handleResponse (E := sample) unparsable 9) = None
  /\ out (socketPacket (E := sample) 0 c unparsable 9) = [EmitError (-499)]
  /\ tcpTimeoutTimer (socketPacket (E := sample) 0 c unparsable 9) = None
  /\ readPQFakeReply (Externals := sample) (handleResponse (E := sample) mismatch 9) = Some 43
  /\ tcpTimeoutTimer (socketPacket (E := sample) 0 c mismatch 9) = None.
Proof. repeat split; reflexivity. Qed.

Lemma probe_response_not_confirming_witness :
  let c := with_timer (Some 2000) (newConnection (E := sample) 42) in
  socketPacket (E := sample) 0 c (2 :: bytes_of_words [85337187; 43]) 9
  = with_timer None c.
Proof.
  intros c.
  destruct (probe_response_not_confirming (E := sample) 0 c
              (2 :: bytes_of_words [85337187; 43]) 9) as (H & _).
  - reflexivity.
  - vm_compute. discriminate.
  - apply (H 43); [reflexivity | vm_compute; discriminate].
Defined.

(** C8 fails as stated: a nonce whose second word is [reserved11] is
    returned by the loop. *)
Lemma second_word_reserved_counterexample :
  let nonce := [1; 1; 1; 1; 0x48; 0x45; 0x41; 0x44] ++ repeat 1 56 in
  generate_nonce [nonce] = Some nonce
  /\ length nonce = 64%nat
  /\ load_u32 nonce 4 = reserved11
  /\ In (load_u32 nonce 4) reserved_first.
Proof. repeat split; try reflexivity. left; reflexivity. Qed.

Lemma nonce_free_of_checked_patterns_witness :
  generate_nonce [repeat 239 64; repeat 1 64] = Some (repeat 1 64)
  /\ byte_at (repeat 1 64) 0 <> 0xEF.
Proof.
  destruct (nonce_free_of_checked_patterns [repeat 239 64; repeat 1 64]) as [_ H].
  - repeat constructor.
  - split; [reflexivity |]. apply (H (repeat 1 64)). reflexivity.
Defined.

Lemma handshake_write_witness :
  exists c', writeConnectionStart (E := sample) [repeat 1 64] (newConnection 42) = Some c'
             /\ length (out c') = 2%nat.
Proof.
  destruct (handshake_write (E := sample) [repeat 1 64] (newConnection 42) (repeat 1 64))
    as (c' & k & s & Hw & _ & _ & _ & _ & Hout & _).
  - reflexivity.
  - reflexivity.
  - exists c'. split; [exact Hw |]. rewrite Hout. reflexivity.
Defined.

Lemma key_derivation_witness :
  exists c', writeConnectionStart (E := sample) [repeat 1 64] (newConnection 42) = Some c'
             /\ _sendKey (obf c') = repeat 1 32.
Proof.
  destruct (key_derivation (E := sample) [repeat 1 64] (newConnection 42) (repeat 1 64))
    as (c' & Hw & _ & Hk & _).
  - reflexivity.
  - reflexivity.
  - intros p. reflexivity.
  - reflexivity.
  - reflexivity.
  - reflexivity.
  - reflexivity.
  - exists c'. split; [exact Hw |]. rewrite Hk. reflexivity.
Defined.

(** C6 fails as stated: the frame for the buffer [10; 20; 30; 40] carries
    its third word, not the words after the first three; and in
    [FinishedWork] a buffer of two words raises no error. *)
Lemma sendData_frame_counterexample :
  let buffer := [10; 20; 30; 40] in
  outgoing_frame buffer = 1 :: bytes_of_words [30]
  /\ encode_header (zlen buffer - 3) ++ bytes_of_words (skipn 3 buffer)
     = 1 :: bytes_of_words [40]
  /\ outgoing_frame buffer
     <> encode_header (zlen buffer - 3) ++ bytes_of_words (skipn 3 buffer)
  /\ (let c := with_status FinishedWork (newConnection (E := sample) 42) in
      sendData (E := sample) [] c [10; 20] = Some c /\ out c = []).
Proof. repeat split; try reflexivity. vm_compute. discriminate. Qed.

Lemma sendData_frame_witness :
  let c := with_status UsingTcp (newConnection (E := sample) 42) in
  sendData (E := sample) [] c [10; 20] = Some (emit (EmitError (-499)) c).
Proof.
  intros c.
  destruct (sendData_frame (E := sample) [] c [10; 20]) as [_ H].
  destruct (H ltac:(discriminate)) as [Hshort _].
  apply Hshort. reflexivity.
Defined.



(** ** The sample cipher is a keystream *)

Lemma sample_cipher_from (key : bytes) (s : CTRState) (data : bytes) (j m : nat) :
  map (fun p => Z.lxor (fst p) (sample_keystream key s (snd p)))
      (combine data (seq (j + m) (length data)))
  = map (fun p => Z.lxor (fst p)
                    (sample_keystream key (mkCTR (ivec s) (num s + Z.of_nat j) (ecount s))
                       (snd p)))
        (combine data (seq m (length data))).
Proof.
  revert m. induction data as [| b data IH]; intros m; [reflexivity |].
  cbn [length seq combine map fst snd]. f_equal.
  - unfold sample_keystream. cbn [ivec num]. do 2 f_equal. lia.
  - rewrite <- IH. replace (S (j + m)) with (j + S m)%nat by lia. reflexivity.
Qed.

Lemma sample_cipher_app (key : bytes) (s : CTRState) (a b : bytes) (m : nat) :
  map (fun p => Z.lxor (fst p) (sample_keystream key s (snd p)))
      (combine (a ++ b) (seq m (length (a ++ b))))
  = map (fun p => Z.lxor (fst p) (sample_keystream key s (snd p)))
        (combine a (seq m (length a)))
    ++ map (fun p => Z.lxor (fst p) (sample_keystream key s (snd p)))
           (combine b (seq (length a + m) (length b))).
Proof.
  revert m. induction a as [| x a IH]; intros m; [reflexivity |].
  cbn [app length seq combine map]. f_equal. rewrite IH.
  replace (length a + S m)%nat with (S (length a + m)) by lia. reflexivity.
Qed.

Lemma sample_cipher_keeps_length : cipher_keeps_length (E := sample).
Proof.
  intros data key s. cbn [aesCtrEncrypt sample]. unfold sample_cipher. cbn [fst].
  rewrite length_map, length_combine, length_seq. lia.
Qed.

Lemma sample_cipher_is_stream : cipher_is_stream (E := sample).
Proof.
  intros a b key s. split; [| apply sample_cipher_keeps_length].
  cbn [aesCtrEncrypt sample]. unfold sample_cipher. cbn [fst snd ivec num ecount].
  f_equal.
  - rewrite sample_cipher_app, (sample_cipher_from key s b (length a) 0). reflexivity.
  - f_equal. rewrite zlen_app. lia.
Qed.

(** ** The further properties on concrete inputs *)

Lemma socketRead_only_signals_witness :
  exists c',
    socketRead 0 (mkSock ConnectedState [12; 29; 27; 34; 41] false)
      (newConnection 42) = Done (c', [])
    /\ only_signals_since (newConnection 42) c'.
Proof.
  eassert (H : socketRead 0 (mkSock ConnectedState [12; 29; 27; 34; 41] false)
                 (newConnection 42) = Done (_, [])) by (vm_compute; reflexivity).
  eexists. split; [exact H |].
  exact (socketRead_only_signals 0 _ _ _ _ H).
Defined.


Lemma closed_connection_is_quiet_witness :
  socketError (disconnectFromServer (newConnection 42))
  = disconnectFromServer (newConnection 42).
Proof.
  destruct (closed_connection_is_quiet
              (disconnectFromServer (newConnection 42))) as (_ & _ & _ & H & _).
  - reflexivity.
  - exact H.
Defined.

Lemma retry_cycle_reconnects_witness :
  let o := obf (newConnection 42) in
  let c := with_obf (mkObf 1 (_sendKey o) (_sendState o) (_receiveKey o)
                           (_receiveState o) (_protocolSecret o) (_protocolDcId o))
             (newConnection 42) in
  _tcpTimeout (onSocketDisconnected (timerExpires ConnectedState c)) = 4000.
Proof.
  intros o c.
  destruct (retry_cycle_reconnects ConnectedState 0 [] c)
    as (_ & _ & _ & _ & H & _).
  - reflexivity.
  - reflexivity.
  - discriminate.
  - vm_compute. discriminate.
  - left. reflexivity.
  - exact H.
Defined.

Lemma sent_frame_is_received_witness :
  handleResponse (outgoing_frame [0; 0; 1; 2; 3])
    (zlen (outgoing_frame [0; 0; 1; 2; 3])) = [1; 2].
Proof.
  destruct (sent_frame_is_received [0; 0; 1; 2; 3]) as (_ & _ & H).
  - simpl. lia.
  - repeat constructor; unfold is_int32; lia.
  - vm_compute. discriminate.
  - vm_compute. reflexivity.
  - vm_compute. discriminate.
  - exact H.
Defined.

Lemma frame_in_pieces_witness :
  exists c',
    receive 0 (newConnection 42) [] [[12; 29]; [27; 34; 41]] = Done c'
    /\ assembler_idle (asm c').
Proof.
  destruct (frame_in_pieces [1; 9; 0; 0; 0]) with
    (now := 0) (c := newConnection 42) (chunks := [[12; 29]; [27; 34; 41]])
    as (k & a' & H & Hidle).
  - simpl. lia.
  - simpl. lia.
  - split; [vm_compute; split; discriminate | reflexivity].
  - exact sample_cipher_is_stream.
  - repeat split.
  - discriminate.
  - repeat constructor; discriminate.
  - reflexivity.
  - eexists. split; [exact H |].
    unfold listening. rewrite socketPacket_with_asm. exact Hidle.
Defined.

Lemma socketRead_stays_in_buffer_witness :
  exists c' unread,
    socketRead 0 (mkSock ConnectedState [12; 29; 27; 34; 41] false)
      (newConnection 42) = Done (c', unread).
Proof.
  destruct (socketRead_stays_in_buffer) with
    (now := 0) (sock := mkSock ConnectedState [12; 29; 27; 34; 41] false)
    (c := newConnection 42) as (c' & unread & H & _).
  - simpl. lia.
  - simpl. lia.
  - exact sample_cipher_keeps_length.
  - unfold buffer_safe. simpl. repeat split; lia.
  - exists c', unread. exact H.
Defined.

